(** * Bounded-concurrency fetch-and-validate pipeline

  Shallow embedding of the week-01 exercises

    - [day-04-asyncio.py]            (module [Asyncio])
    - [pydantic_etl_validator.py]    (module [Validator])
    - [day-07-ingestor-generico.py]  (module [Ingestor])

  Python values are a first-order datatype ([Py.value]); exceptions are
  explicit ([Py.outcome]); the asyncio event loop is a step relation on
  the state of the semaphore and of the gathered tasks, together with an
  executable scheduler. *)

From Stdlib Require Import ZArith List String Ascii Bool Lia Permutation.
From Stdlib Require Import DecimalString DecimalZ.
From Stdlib Require Import Floats.PrimFloat.
From Stdlib Require Floats.SpecFloat Floats.FloatOps.
Import ListNotations.

Set Warnings "-register-all,-inexact-float".

Local Open Scope Z_scope.

(* ================================================================== *)
(** ** Python values, dictionaries and exceptions *)
(* ================================================================== *)

Module Py.

(** [datetime.date]: ordered lexicographically by year, month, day. *)
Record date := mkdate { year : Z; month : Z; day : Z }.

Definition date_gt (a b : date) : bool :=
  (year b <? year a)
  || ((year a =? year b)
      && ((month b <? month a)
          || ((month a =? month b) && (day b <? day a)))).

(** The values that travel through the pipeline: what [response.json()]
    can produce, plus the [date] objects that [model_dump()] emits.
    A [dict] keeps its insertion order; keys are strings. *)
Inductive value :=
| VNone
| VBool (b : bool)
| VInt (z : Z)
| VFloat (f : float)
| VStr (s : string)
| VDate (d : date)
| VList (items : list value)
| VDict (kv : list (string * value)).

Definition dict := list (string * value).

(** [d.get(key)] on a dictionary: [None] when the key is absent. *)
Fixpoint lookup (key : string) (d : dict) : option value :=
  match d with
  | [] => None
  | (k, v) :: rest => if String.eqb k key then Some v else lookup key rest
  end.

Definition isinstance_dict (v : value) : bool :=
  match v with VDict _ => true | _ => false end.

(** [str(n)] for an integer. *)
Definition str_of_int (n : Z) : string := NilEmpty.string_of_int (Z.to_int n).

(** Exception classes met in the exercises, all subclasses of
    [Exception].  [ServerTimeoutError] inherits from both
    [aiohttp.ClientError] and [asyncio.TimeoutError]. *)
Inductive exn_class :=
| TimeoutError
| ServerTimeoutError
| ClientError
| AttributeError
| TypeError
| ValueError
| IndexError
| OtherException.

Record exn := mkexn { exn_cls : exn_class; exn_msg : string }.

Definition is_TimeoutError (e : exn) : bool :=
  match exn_cls e with
  | TimeoutError | ServerTimeoutError => true
  | _ => false
  end.

Definition is_ClientError (e : exn) : bool :=
  match exn_cls e with
  | ClientError | ServerTimeoutError => true
  | _ => false
  end.

Definition is_Exception (e : exn) : bool :=
  match exn_cls e with
  | TimeoutError | ServerTimeoutError | ClientError | AttributeError
  | TypeError | ValueError | IndexError | OtherException => true
  end.

(** What evaluating a statement or a call does: it returns or raises. *)
Inductive outcome (A : Type) :=
| Return (a : A)
| Raise (e : exn).
Arguments Return {A} a.
Arguments Raise {A} e.

(** [data.get(key)]: only a mapping has the method. *)
Definition get (data : value) (key : string) : outcome value :=
  match data with
  | VDict kv =>
      Return (match lookup key kv with Some v => v | None => VNone end)
  | _ => Raise (mkexn AttributeError "object has no attribute 'get'"%string)
  end.

End Py.

(* ================================================================== *)
(** ** day-04-asyncio.py *)
(* ================================================================== *)

Module Asyncio.
Import Py.

Definition BASE_URL : string := "https://pokeapi.co/api/v2/pokemon/"%string.
Definition POKEMON_IDS : list Z := map Z.of_nat (seq 1 50).
Definition MAX_CONCURRENT_REQUESTS : Z := 10.
Definition TIMEOUT_SECONDS : Z := 10.

(** *** The network, as seen by one request

    [session.get(url, timeout=...)] either raises on the way in, or hands
    over a response with a status; [await response.json()] then returns
    the parsed body or raises (body not received in time, broken
    connection, undecodable content). *)
Inductive json_outcome :=
| JsonValue (data : value)
| JsonRaises (e : exn).

Inductive net_behaviour :=
| GetRaises (e : exn)
| Responds (status : Z) (body : json_outcome).

(** The behaviour of the [k]-th request issued, for a URL and a timeout. *)
Definition network := nat -> string -> Z -> net_behaviour.

(** *** Log records, by call site *)
Inductive log_level := INFO | WARNING | ERROR.

Inductive log_event :=
| ResourceProcessed (entity_id : Z) (name : value)
| ResourceStatus (entity_id : Z) (status : Z)
| ResourceTimeout (entity_id : Z)
| ResourceConnection (entity_id : Z) (msg : string)
| ResourceUnexpected (entity_id : Z) (msg : string)
| SummaryHeader
| SummaryElapsed
| SummarySuccessful (successful total : nat).

Definition level_of (ev : log_event) : log_level :=
  match ev with
  | ResourceProcessed _ _ => INFO
  | ResourceStatus _ _ => WARNING
  | ResourceTimeout _ => ERROR
  | ResourceConnection _ _ => ERROR
  | ResourceUnexpected _ _ => ERROR
  | SummaryHeader => INFO
  | SummaryElapsed => INFO
  | SummarySuccessful _ _ => INFO
  end.

(** *** [fetch_entity_data]

    The body of the inner [async with session.get(...)] block
    (lines 35-42): what it logs, and whether it returns or raises. *)
Definition request_block (entity_id : Z) (b : net_behaviour)
  : list log_event * outcome value :=
  match b with
  | GetRaises e => ([], Raise e)
  | Responds status body =>
      if status =? 200 then
        match body with
        | JsonRaises e => ([], Raise e)
        | JsonValue data =>
            match get data "name"%string with
            | Raise e => ([], Raise e)
            | Return name => ([ResourceProcessed entity_id name], Return data)
            end
        end
      else ([ResourceStatus entity_id status], Return VNone)
  end.

(** The [try]/[except] chain of lines 33-50: the first matching handler
    logs and falls through to the final [return None]. *)
Definition handle (entity_id : Z) (e : exn) : list log_event * outcome value :=
  if is_TimeoutError e then ([ResourceTimeout entity_id], Return VNone)
  else if is_ClientError e then
    ([ResourceConnection entity_id (exn_msg e)], Return VNone)
  else if is_Exception e then
    ([ResourceUnexpected entity_id (exn_msg e)], Return VNone)
  else ([], Raise e).

(** The coroutine once it is inside [async with semaphore] (lines 32-50):
    what it logs and what it hands back.  Taking and giving back the slot
    are the moves [acquire] and [finish] of the event loop below. *)
Definition fetch_entity_data (net : network) (k : nat) (entity_id : Z)
  : list log_event * outcome value :=
  let url := String.append BASE_URL (str_of_int entity_id) in
  let '(logs, r) := request_block entity_id (net k url TIMEOUT_SECONDS) in
  match r with
  | Return v => (logs, Return v)
  | Raise e => let '(logs', r') := handle entity_id e in (logs ++ logs', r')
  end.

(** *** [asyncio.Semaphore] and the event loop

    A coroutine of [fetch_entity_data] is suspended at two places: on
    [async with semaphore] until a slot is free, and inside the slot
    until the network has answered. *)
Inductive phase :=
| Waiting
| InFlight
| Done (r : outcome value).

Record task := mktask { request_no : nat; entity_id : Z; st : phase }.

Record loop_state := mkstate {
  sem_value : Z;               (* semaphore._value *)
  tasks : list task;           (* the coroutines handed to gather *)
  log : list log_event
}.

(** [asyncio.Semaphore(value)] refuses a negative initial value. *)
Definition Semaphore (value : Z) : outcome Z :=
  if value <? 0 then
    Raise (mkexn ValueError "Semaphore initial value must be >= 0"%string)
  else Return value.

Fixpoint update (i : nat) (t : task) (l : list task) : list task :=
  match l, i with
  | [], _ => []
  | _ :: rest, O => t :: rest
  | x :: rest, S j => x :: update j t rest
  end.

Definition is_waiting (t : task) : bool :=
  match st t with Waiting => true | _ => false end.
Definition is_in_flight (t : task) : bool :=
  match st t with InFlight => true | _ => false end.

(** Number of coroutines inside [async with semaphore]. *)
Definition in_flight (s : loop_state) : Z :=
  Z.of_nat (List.length (filter is_in_flight (tasks s))).

(** [semaphore.acquire()] succeeding for task [i]. *)
Definition acquire (i : nat) (t : task) (s : loop_state) : loop_state :=
  mkstate (sem_value s - 1)
          (update i (mktask (request_no t) (entity_id t) InFlight) (tasks s))
          (log s).

(** Task [i] runs lines 32-50 to its [return] and leaves the
    [async with]: [semaphore.release()], whatever the body did. *)
Definition finish (net : network) (i : nat) (t : task) (s : loop_state)
  : loop_state :=
  let '(logs, r) := fetch_entity_data net (request_no t) (entity_id t) in
  mkstate (sem_value s + 1)
          (update i (mktask (request_no t) (entity_id t) (Done r)) (tasks s))
          (log s ++ logs).

Inductive step (net : network) : loop_state -> loop_state -> Prop :=
| step_acquire s i t :
    nth_error (tasks s) i = Some t ->
    st t = Waiting ->
    0 < sem_value s ->
    step net s (acquire i t s)
| step_release s i t :
    nth_error (tasks s) i = Some t ->
    st t = InFlight ->
    step net s (finish net i t s).

Inductive reachable (net : network) (s0 : loop_state) : loop_state -> Prop :=
| reach_start : reachable net s0 s0
| reach_step s s' : reachable net s0 s -> step net s s' -> reachable net s0 s'.

(** The list comprehension of lines 62-65: one coroutine per identifier,
    in input order. *)
Fixpoint make_tasks (k : nat) (ids : list Z) : list task :=
  match ids with
  | [] => []
  | p_id :: rest => mktask k p_id Waiting :: make_tasks (S k) rest
  end.

Definition initial (sem : Z) (ids : list Z) : loop_state :=
  mkstate sem (make_tasks 0 ids) [].

(** *** An executable event loop

    One turn under the policy "the oldest coroutine that can move, moves":
    a waiting coroutine takes a free slot; when none can, the oldest
    request in flight is answered.  Every turn is a [step]. *)
Fixpoint find_task (p : task -> bool) (i : nat) (l : list task)
  : option (nat * task) :=
  match l with
  | [] => None
  | t :: rest => if p t then Some (i, t) else find_task p (S i) rest
  end.

Definition next_turn (net : network) (s : loop_state) : option loop_state :=
  match (if 0 <? sem_value s then find_task is_waiting 0 (tasks s) else None) with
  | Some (i, t) => Some (acquire i t s)
  | None =>
      match find_task is_in_flight 0 (tasks s) with
      | Some (i, t) => Some (finish net i t s)
      | None => None
      end
  end.

(** [asyncio.gather] with [return_exceptions=True]: the list of what the
    coroutines returned or raised, in the order of [tasks], once every
    one of them is done. *)
Fixpoint gather_results (l : list task) : option (list (outcome value)) :=
  match l with
  | [] => Some []
  | t :: rest =>
      match st t, gather_results rest with
      | Done r, Some rs => Some (r :: rs)
      | _, _ => None
      end
  end.

Inductive loop_result :=
| Finished (results : list (outcome value)) (s : loop_state)
| Stuck (s : loop_state)
| OutOfFuel.

Fixpoint event_loop (net : network) (fuel : nat) (s : loop_state) : loop_result :=
  match gather_results (tasks s) with
  | Some rs => Finished rs s
  | None =>
      match fuel with
      | O => OutOfFuel
      | S fuel' =>
          match next_turn net s with
          | Some s' => event_loop net fuel' s'
          | None => Stuck s
          end
      end
  end.

(** *** [run_extraction_pipeline]

    The capacity, the identifiers and the network are parameters here;
    the script fixes them to [MAX_CONCURRENT_REQUESTS], [POKEMON_IDS] and
    the real network.  Wall-clock time is not modelled: the line that
    reports the elapsed time is logged without its figure. *)

(** [isinstance(r, dict)] on an entry of [results]. *)
Definition is_dict_result (r : outcome value) : bool :=
  match r with
  | Return v => isinstance_dict v
  | Raise _ => false
  end.

Record batch := mkbatch {
  results : list (outcome value);
  valid_results : list (outcome value);
  run_log : list log_event
}.

Inductive run_result :=
| Completed (b : batch)
| Raised (e : exn)
| NeverReturns (s : loop_state)
| MoreFuel.

Definition run_extraction_pipeline
  (capacity : Z) (ids : list Z) (net : network) (fuel : nat) : run_result :=
  match Semaphore capacity with
  | Raise e => Raised e
  | Return semaphore =>
      match event_loop net fuel (initial semaphore ids) with
      | Finished rs s =>
          let valid := filter is_dict_result rs in
          Completed
            (mkbatch rs valid
               (log s ++ [SummaryHeader; SummaryElapsed;
                          SummarySuccessful (List.length valid) (List.length ids)]))
      | Stuck s => NeverReturns s
      | OutOfFuel => MoreFuel
      end
  end.

(** Counts read off a finished batch. *)
Definition attempted (b : batch) : nat := List.length (results b).
Definition succeeded (b : batch) : nat := List.length (valid_results b).
Definition failed (b : batch) : nat :=
  List.length (filter (fun r => negb (is_dict_result r)) (results b)).

(** *** Notions used to state the properties of the event loop *)

Definition b2n (b : bool) : nat := if b then 1%nat else 0%nat.

(** What the coroutine of a task returns once it has run. *)
Definition task_outcome (net : network) (t : task) : outcome value :=
  snd (fetch_entity_data net (request_no t) (entity_id t)).

(** The entries [gather] must deliver: one per identifier, in input order. *)
Definition expected_results (net : network) (ids : list Z) : list (outcome value) :=
  map (task_outcome net) (make_tasks 0 ids).

(** The gate invariant: the slots handed out and the slots left add up to
    the capacity. *)
Definition gate_inv (capacity : Z) (s : loop_state) : Prop :=
  0 <= sem_value s /\ sem_value s + in_flight s = capacity.

(** Tasks keep their request and, once done, hold the outcome of their own
    request. *)
Definition same_requests (l l' : list task) : Prop :=
  map (fun t => (request_no t, entity_id t)) l
  = map (fun t => (request_no t, entity_id t)) l'.

Definition done_right (net : network) (l : list task) : Prop :=
  Forall (fun t => forall r, st t = Done r -> r = task_outcome net t) l.

(** Remaining moves: two per waiting coroutine, one per request in flight. *)
Definition work (s : loop_state) : nat :=
  (2 * List.length (filter is_waiting (tasks s))
   + List.length (filter is_in_flight (tasks s)))%nat.

End Asyncio.

(* ================================================================== *)
(** ** pydantic, as far as the two data contracts use it *)
(* ================================================================== *)

Module Pydantic.
Import Py.

(** One entry of [ValidationError.errors()]. *)
Record error_detail := mkerror {
  err_type : string;
  err_loc : string;
  err_msg : string;
  err_input : value
}.

(** The result of validating a field or a whole model: the value, or the
    errors found so far (a [ValidationError] never carries an empty list). *)
Inductive validation (A : Type) :=
| Ok (a : A)
| Errors (first : error_detail) (more : list error_detail).
Arguments Ok {A} a.
Arguments Errors {A} first more.

(** Fields are validated in declaration order and every failure is kept. *)
Definition ap {A B} (vf : validation (A -> B)) (va : validation A) : validation B :=
  match vf, va with
  | Ok f, Ok a => Ok (f a)
  | Ok _, Errors e es => Errors e es
  | Errors e es, Ok _ => Errors e es
  | Errors e es, Errors e' es' => Errors e (es ++ e' :: es')
  end.

Definition and_then {A B} (va : validation A) (k : A -> validation B) : validation B :=
  match va with
  | Ok a => k a
  | Errors e es => Errors e es
  end.

(** What the library does with an input that is not already an instance
    of the field's type (lax-mode conversion of strings, numbers, ...),
    and the address normalisation behind [EmailStr]. *)
Record coercions := mkcoercions {
  int_lax : value -> option Z;
  float_lax : value -> option float;
  date_lax : value -> option date;
  email_normalise : string -> option string
}.

Definition validate_int (c : coercions) (loc : string) (v : value) : validation Z :=
  match v with
  | VInt z => Ok z
  | _ =>
      match int_lax c v with
      | Some z => Ok z
      | None => Errors (mkerror "int_parsing" loc "Input should be a valid integer" v) []
      end
  end.

Definition validate_float (c : coercions) (loc : string) (v : value) : validation float :=
  match v with
  | VFloat f => Ok f
  | _ =>
      match float_lax c v with
      | Some f => Ok f
      | None => Errors (mkerror "float_parsing" loc "Input should be a valid number" v) []
      end
  end.

Definition validate_date (c : coercions) (loc : string) (v : value) : validation date :=
  match v with
  | VDate d => Ok d
  | _ =>
      match date_lax c v with
      | Some d => Ok d
      | None => Errors (mkerror "date_parsing" loc "Input should be a valid date" v) []
      end
  end.

Definition validate_str (loc : string) (v : value) : validation string :=
  match v with
  | VStr s => Ok s
  | _ => Errors (mkerror "string_type" loc "Input should be a valid string" v) []
  end.

(** [Optional[str]] *)
Definition validate_optional_str (loc : string) (v : value) : validation (option string) :=
  match v with
  | VNone => Ok None
  | VStr s => Ok (Some s)
  | _ => Errors (mkerror "string_type" loc "Input should be a valid string" v) []
  end.

(** [EmailStr]: a string that the address validator accepts; the field
    holds the normalised address. *)
Definition validate_email (c : coercions) (loc : string) (v : value) : validation string :=
  match v with
  | VStr s =>
      match email_normalise c s with
      | Some s' => Ok s'
      | None => Errors (mkerror "value_error" loc "value is not a valid email address" v) []
      end
  | _ => Errors (mkerror "string_type" loc "Input should be a valid string" v) []
  end.

(** [Field(ge=0.01)] *)
Definition check_ge (bound : float) (loc : string) (f : float) : validation float :=
  if PrimFloat.leb bound f then Ok f
  else Errors (mkerror "greater_than_equal" loc
                 "Input should be greater than or equal to 0.01" (VFloat f)) [].

(** [Field(...)]: a required field. *)
Definition required {A} (name : string) (check : string -> value -> validation A)
  (kw : dict) : validation A :=
  match lookup name kw with
  | Some v => check name v
  | None => Errors (mkerror "missing" name "Field required" (VDict kw)) []
  end.

(** [Field(default=...)]: the default is taken as it is, unvalidated. *)
Definition with_default {A} (name : string) (default : A)
  (check : string -> value -> validation A) (kw : dict) : validation A :=
  match lookup name kw with
  | Some v => check name v
  | None => Ok default
  end.

(** [Field(alias=...)] under [populate_by_name = True]: the alias is
    looked up first, then the field's own name. *)
Definition required_alias {A} (alias name : string)
  (check : string -> value -> validation A) (kw : dict) : validation A :=
  match lookup alias kw with
  | Some v => check alias v
  | None =>
      match lookup name kw with
      | Some v => check name v
      | None => Errors (mkerror "missing" alias "Field required" (VDict kw)) []
      end
  end.

(** A model class, seen from generic code: calling it on keyword
    arguments, and [model_dump()]. *)
Record BaseModel := mkmodel {
  instance : Type;
  call : dict -> validation instance;
  model_dump : instance -> dict
}.


End Pydantic.

(* ================================================================== *)
(** ** [str.strip] and [str.upper] on ASCII text *)
(* ================================================================== *)

(** Strings are sequences of 8-bit characters.  On the ASCII range the
    functions below are Python's; a character above it is left alone by
    [upper] and is not white space. *)
Module Str.

(** The ASCII characters for which [str.isspace] holds. *)
Definition isspace (c : ascii) : bool :=
  let n := nat_of_ascii c in
  ((9 <=? n) && (n <=? 13) || (28 <=? n) && (n <=? 32))%nat.

Definition upper_char (c : ascii) : ascii :=
  let n := nat_of_ascii c in
  if ((97 <=? n) && (n <=? 122))%nat then ascii_of_nat (n - 32) else c.

Fixpoint upper (s : string) : string :=
  match s with
  | EmptyString => EmptyString
  | String c rest => String (upper_char c) (upper rest)
  end.

Fixpoint lstrip (s : string) : string :=
  match s with
  | EmptyString => EmptyString
  | String c rest => if isspace c then lstrip rest else s
  end.

Fixpoint rstrip (s : string) : string :=
  match s with
  | EmptyString => EmptyString
  | String c rest =>
      match rstrip rest with
      | EmptyString => if isspace c then EmptyString else String c EmptyString
      | kept => String c kept
      end
  end.

Definition strip (s : string) : string := rstrip (lstrip s).

(** A string that does not begin with white space. *)
Definition clean_head (s : string) : Prop :=
  match s with
  | EmptyString => True
  | String c _ => isspace c = false
  end.

End Str.

(* ================================================================== *)
(** ** pydantic_etl_validator.py *)
(* ================================================================== *)

Module Validator.
Import Py Pydantic.

Record TransaccionVentas := mkTransaccionVentas {
  transaccion_id : Z;
  email_cliente : string;
  monto_usd : float;
  fecha_transaccion : date;
  metodo_pago : string;
  notas_adicionales : option string
}.

(** [validar_fecha_no_futura], with [date.today()] as [today]. *)
Definition validar_fecha_no_futura (today : date) (loc : string) (valor_fecha : date)
  : validation date :=
  if date_gt valor_fecha today then
    Errors (mkerror "value_error" loc
              "Value error, Data Quality Error: La fecha de la transacción no puede ser posterior al día de hoy."
              (VDate valor_fecha)) []
  else Ok valor_fecha.

Definition estandarizar_metodo_pago (valor_metodo : string) : string :=
  Str.upper (Str.strip valor_metodo).

(** Calling [TransaccionVentas] on keyword arguments: the six fields in declaration order, each
    with its type, its constraint and its [field_validator]. *)
Definition new_TransaccionVentas (c : coercions) (today : date) (kw : dict)
  : validation TransaccionVentas :=
  ap (ap (ap (ap (ap (ap (Ok mkTransaccionVentas)
    (required "transaccion_id" (validate_int c) kw))
    (required "email_cliente" (validate_email c) kw))
    (required "monto_usd"
       (fun loc v => and_then (validate_float c loc v) (check_ge 0.01 loc)) kw))
    (required "fecha_transaccion"
       (fun loc v => and_then (validate_date c loc v)
                              (validar_fecha_no_futura today loc)) kw))
    (with_default "metodo_pago" "NO_ESPECIFICADO"%string
       (fun loc v => and_then (validate_str loc v)
                              (fun s => Ok (estandarizar_metodo_pago s))) kw))
    (with_default "notas_adicionales" None validate_optional_str kw).

Definition dump_TransaccionVentas (m : TransaccionVentas) : dict :=
  [ ("transaccion_id"%string, VInt (transaccion_id m));
    ("email_cliente"%string, VStr (email_cliente m));
    ("monto_usd"%string, VFloat (monto_usd m));
    ("fecha_transaccion"%string, VDate (fecha_transaccion m));
    ("metodo_pago"%string, VStr (metodo_pago m));
    ("notas_adicionales"%string,
      match notas_adicionales m with Some s => VStr s | None => VNone end) ].

Definition TransaccionVentas_model (c : coercions) (today : date) : BaseModel :=
  mkmodel TransaccionVentas (new_TransaccionVentas c today) dump_TransaccionVentas.

(** [json.dumps] writes the JSON types and refuses the rest with a
    [TypeError]; the text it produces is [json_text]. *)
Fixpoint json_serializable (v : value) : bool :=
  match v with
  | VDate _ => false
  | VList items => forallb json_serializable items
  | VDict kv => forallb (fun p => json_serializable (snd p)) kv
  | _ => true
  end.

Definition json_dumps (json_text : value -> string) (v : value) : outcome string :=
  if json_serializable v then Return (json_text v)
  else Raise (mkexn TypeError "Object is not JSON serializable").

(** One entry of the dead-letter list. *)
Record error_estructurado := mkerror_estructurado {
  payload_original : string;
  motivos_rechazo : list error_detail;
  falla_en_pipeline : string
}.

(** What the function holds while it runs: the caller's list (the records
    already visited, as the loop body left them) and the two lists built. *)
Record lote := mklote {
  vistos : list dict;
  registros_validos : list dict;
  registros_cuarentena : list error_estructurado
}.

(** The [for registro in datos_crudos] loop of lines 121-139. *)
Fixpoint procesar_bucle (c : coercions) (today : date) (json_text : value -> string)
  (datos : list dict) (acc : lote) : outcome lote :=
  match datos with
  | [] => Return acc
  | registro :: resto =>
      match new_TransaccionVentas c today registro with
      | Ok registro_limpio =>
          procesar_bucle c today json_text resto
            (mklote (vistos acc ++ [registro])
                    (registros_validos acc ++ [dump_TransaccionVentas registro_limpio])
                    (registros_cuarentena acc))
      | Errors e es =>
          match json_dumps json_text (VDict registro) with
          | Raise exc => Raise exc
          | Return payload =>
              procesar_bucle c today json_text resto
                (mklote (vistos acc ++ [registro])
                        (registros_validos acc)
                        (registros_cuarentena acc
                           ++ [mkerror_estructurado payload (e :: es)
                                 "Pydantic Data Quality Gate"]))
          end
      end
  end.

Definition procesar_lote_extraccion (c : coercions) (today : date)
  (json_text : value -> string) (datos_crudos : list dict) : outcome lote :=
  procesar_bucle c today json_text datos_crudos (mklote [] [] []).

(** The records [json.dumps] can write. *)
Definition serializable (datos : list dict) : Prop :=
  Forall (fun registro => json_serializable (VDict registro) = true) datos.

(** The dead-letter entry built for a rejected record. *)
Definition entrada (json_text : value -> string) (p : dict * list error_detail)
  : error_estructurado :=
  mkerror_estructurado (json_text (VDict (fst p))) (snd p)
    "Pydantic Data Quality Gate".

End Validator.

(* ================================================================== *)
(** ** day-07-ingestor-generico.py *)
(* ================================================================== *)

Module Ingestor.
Import Py Pydantic.

Record UsuarioAPI := mkUsuarioAPI {
  id_usuario : Z;
  nombre : string;
  email : string
}.

(** Calling [UsuarioAPI] on keyword arguments: [id] and [name] are the
    aliases of [id_usuario] and [nombre]; [Config.populate_by_name]
    lets the field names through as well. *)
Definition new_UsuarioAPI (c : coercions) (kw : dict) : validation UsuarioAPI :=
  ap (ap (ap (Ok mkUsuarioAPI)
    (required_alias "id" "id_usuario" (validate_int c) kw))
    (required_alias "name" "nombre" validate_str kw))
    (required "email" (validate_email c) kw).

(** [model_dump(by_alias=False)] *)
Definition dump_UsuarioAPI (u : UsuarioAPI) : dict :=
  [ ("id_usuario"%string, VInt (id_usuario u));
    ("nombre"%string, VStr (nombre u));
    ("email"%string, VStr (email u)) ].

Definition UsuarioAPI_model (c : coercions) : BaseModel :=
  mkmodel UsuarioAPI (new_UsuarioAPI c) dump_UsuarioAPI.

Record IngestorGenerico := mkIngestorGenerico {
  url : string;
  modelo_pydantic : BaseModel
}.

Definition banner : string :=
  "[Procesamiento] Iniciando validacion de calidad de datos...".

(** The line printed for a discarded record: the message of the first
    entry of [e.errors()]. *)
Definition linea_descarte (e : error_detail) : string :=
  String.append "[Error de Calidad] Registro descartado. Motivo: " (err_msg e).

(** *** [validar_en_flujo], a generator

    The generator object is created without running; each [next] runs the
    loop up to the next [yield] or to the end. *)
Inductive generator :=
| Created (datos_crudos : list dict)
| Suspended (pendientes : list dict)
| Closed.

(** The loop from the current record on: the lines printed, and the value
    yielded together with the records still to visit, if any is valid. *)
Fixpoint avanzar (modelo : BaseModel) (pendientes : list dict)
  : list string * option (dict * list dict) :=
  match pendientes with
  | [] => ([], None)
  | registro :: resto =>
      match call modelo registro with
      | Ok modelo_valido => ([], Some (model_dump modelo modelo_valido, resto))
      | Errors e _ =>
          let '(impreso, r) := avanzar modelo resto in
          (linea_descarte e :: impreso, r)
      end
  end.

Definition suspender (r : list string * option (dict * list dict))
  : list string * option dict * generator :=
  match r with
  | (impreso, Some (limpio, resto)) => (impreso, Some limpio, Suspended resto)
  | (impreso, None) => (impreso, None, Closed)
  end.

(** [next(g)]: what is printed, the value yielded ([None] stands for
    [StopIteration]) and the generator afterwards. *)
Definition next (self : IngestorGenerico) (g : generator)
  : list string * option dict * generator :=
  match g with
  | Created datos_crudos =>
      let '(impreso, y, g') := suspender (avanzar (modelo_pydantic self) datos_crudos) in
      (banner :: impreso, y, g')
  | Suspended pendientes => suspender (avanzar (modelo_pydantic self) pendientes)
  | Closed => ([], None, Closed)
  end.

Definition validar_en_flujo (self : IngestorGenerico) (datos_crudos : list dict)
  : generator := Created datos_crudos.

(** [list(g)], as [ejecutar_pipeline] consumes the generator: everything
    printed on the way and the values yielded. *)
Fixpoint list_of (self : IngestorGenerico) (fuel : nat) (g : generator)
  : option (list string * list dict) :=
  match fuel with
  | O => None
  | S fuel' =>
      match next self g with
      | (impreso, None, _) => Some (impreso, [])
      | (impreso, Some limpio, g') =>
          match list_of self fuel' g' with
          | Some (impreso', limpios) => Some (impreso ++ impreso', limpio :: limpios)
          | None => None
          end
      end
  end.

(** The lines printed for the rejected records: the message of the first
    reason of each. *)
Definition lineas_descarte (rs : list (dict * list error_detail)) : list string :=
  flat_map (fun p => match snd p with
                     | e :: _ => [linea_descarte e]
                     | [] => []
                     end) rs.

End Ingestor.

(* ================================================================== *)
(** ** The vocabulary of the specification *)
(* ================================================================== *)

Module Spec.
Import Py Pydantic Asyncio.

(** Section 3 of the specification: the tagged result for one identifier. *)
Inductive FetchOutcome :=
| Success (identifier : Z) (payload : value)
| SoftFailure (identifier : Z) (statusCode : Z)
| HardFailure (identifier : Z) (cause : exn).

(** Section 4.1, status interpretation, in the specification's words. *)
Definition dispatch (identifier : Z) (b : net_behaviour) : FetchOutcome :=
  match b with
  | GetRaises e => HardFailure identifier e
  | Responds status body =>
      if status =? 200 then
        match body with
        | JsonValue data => Success identifier data
        | JsonRaises e => HardFailure identifier e
        end
      else SoftFailure identifier status
  end.

(** Section 3: the tagged result for one raw record. *)
Inductive ValidationVerdict :=
| Accepted (cleanRecord : dict)
| Rejected (originalPayload : dict) (reasons : list error_detail).

(** Section 4.3: one verdict per record, in input order. *)
Definition verdict (validator : BaseModel) (record : dict) : ValidationVerdict :=
  match call validator record with
  | Ok clean => Accepted (model_dump validator clean)
  | Errors e es => Rejected record (e :: es)
  end.

Definition validateStream (validator : BaseModel) (records : list dict)
  : list ValidationVerdict :=
  map (verdict validator) records.

Definition accepted (vs : list ValidationVerdict) : list dict :=
  flat_map (fun v => match v with Accepted c => [c] | Rejected _ _ => [] end) vs.

Definition rejected (vs : list ValidationVerdict) : list (dict * list error_detail) :=
  flat_map (fun v => match v with Accepted _ => [] | Rejected p r => [(p, r)] end) vs.

End Spec.

(* ================================================================== *)
(** ** Concrete runs *)
(* ================================================================== *)

Module Scenarios.
Import Py Pydantic Asyncio.

Definition pokemon (name : string) : value :=
  VDict [("name"%string, VStr name); ("id"%string, VInt 1)].

Definition url_of (entity_id : Z) : string :=
  String.append BASE_URL (str_of_int entity_id).

(** Every resource is served. *)
Definition net_ok : network :=
  fun _ _ _ => Responds 200 (JsonValue (pokemon "bulbasaur")).

(** The server answers 404 for identifier 2 and serves the rest. *)
Definition net_404_for_2 : network :=
  fun _ url _ =>
    if String.eqb url (url_of 2) then Responds 404 (JsonValue VNone)
    else Responds 200 (JsonValue (pokemon "bulbasaur")).

(** The server answers 500 for identifier 2 and serves the rest. *)
Definition net_500_for_2 : network :=
  fun _ url _ =>
    if String.eqb url (url_of 2) then Responds 500 (JsonValue VNone)
    else Responds 200 (JsonValue (pokemon "bulbasaur")).



(** Three identifiers under a gate of two slots, after the first two
    coroutines have entered. *)
Definition two_in_flight : loop_state :=
  acquire 1 (mktask 1 2 Waiting)
    (acquire 0 (mktask 0 1 Waiting) (initial 2 [1; 2; 3])).

(** *** Sample data for the two data contracts *)

Definition is_digit (c : ascii) : bool :=
  let n := nat_of_ascii c in ((48 <=? n) && (n <=? 57))%nat.

Fixpoint digits_value (acc : Z) (s : string) : option Z :=
  match s with
  | EmptyString => Some acc
  | String c rest =>
      if is_digit c
      then digits_value (10 * acc + Z.of_nat (nat_of_ascii c - 48)) rest
      else None
  end.

Definition int_of_decimal (s : string) : option Z :=
  match s with
  | EmptyString => None
  | _ => digits_value 0 s
  end.

(** [YYYY-MM-DD] *)
Definition date_of_iso (s : string) : option date :=
  match s with
  | String y1 (String y2 (String y3 (String y4 (String "-"
      (String m1 (String m2 (String "-" (String d1 (String d2 EmptyString))))))))) =>
      match digits_value 0 (String y1 (String y2 (String y3 (String y4 EmptyString)))),
            digits_value 0 (String m1 (String m2 EmptyString)),
            digits_value 0 (String d1 (String d2 EmptyString)) with
      | Some y, Some m, Some d => Some (mkdate y m d)
      | _, _, _ => None
      end
  | _ => None
  end.

Fixpoint has_at_sign (s : string) : bool :=
  match s with
  | EmptyString => false
  | String c rest => Ascii.eqb c "@" || has_at_sign rest
  end.

(** A small stand-in for the conversions of the library: decimal strings
    and booleans for integers, ISO strings for dates, and an address
    check that wants an at sign and changes nothing. *)
Definition lax_demo : coercions :=
  mkcoercions
    (fun v =>
       match v with
       | VStr s => int_of_decimal s
       | VBool b => Some (if b then 1 else 0)
       | _ => None
       end)
    (fun _ => None)
    (fun v => match v with VStr s => date_of_iso s | _ => None end)
    (fun s => if has_at_sign s then Some s else None).

(** A stand-in for the text [json.dumps] writes: the keys of a mapping. *)
Definition json_keys (v : value) : string :=
  match v with
  | VDict kv => String.concat ", " (map fst kv)
  | _ => EmptyString
  end.

Definition hoy : date := mkdate 2024 1 1.

(** [lote_json_sucio], the batch of the script's entry point. *)
Definition registro_1 : dict :=
  [ ("transaccion_id"%string, VStr "1001");
    ("email_cliente"%string, VStr "usuario1@empresa.com");
    ("monto_usd"%string, VFloat 150.5);
    ("fecha_transaccion"%string, VStr "2023-10-15");
    ("metodo_pago"%string, VStr "   tarjeta_credito  ") ].

Definition registro_2 : dict :=
  [ ("transaccion_id"%string, VInt 1002);
    ("email_cliente"%string, VStr "usuario2_sin_arroba.com");
    ("monto_usd"%string, VFloat 50);
    ("fecha_transaccion"%string, VStr "2023-10-15") ].

Definition registro_3 : dict :=
  [ ("transaccion_id"%string, VInt 1003);
    ("email_cliente"%string, VStr "usuario3@empresa.com");
    ("monto_usd"%string, VFloat (-10));
    ("fecha_transaccion"%string, VStr "2099-12-31") ].

Definition registro_4 : dict :=
  [ ("transaccion_id"%string, VInt 1004);
    ("email_cliente"%string, VStr "usuario4@empresa.com");
    ("monto_usd"%string, VFloat 99.99);
    ("fecha_transaccion"%string, VStr "2023-10-16") ].

Definition lote_json_sucio : list dict :=
  [registro_1; registro_2; registro_3; registro_4].

(** Two users as the public test API serves them, the second without an
    address. *)
Definition usuario_1 : dict :=
  [ ("id"%string, VInt 1);
    ("name"%string, VStr "Leanne Graham");
    ("username"%string, VStr "Bret");
    ("email"%string, VStr "Sincere@april.biz") ].

Definition usuario_2 : dict :=
  [ ("id"%string, VInt 2); ("name"%string, VStr "Ervin Howell") ].

End Scenarios.

(* ================================================================== *)
(** ** Interleavings of the event loop, move by move *)
(* ================================================================== *)

Module Schedules.
Import Py Asyncio.

(** The next move of the coroutine at position [i], when it has one: a
    waiting coroutine enters when a slot is free, a request in flight is
    answered. *)
Definition move (net : network) (i : nat) (s : loop_state) : option loop_state :=
  match nth_error (tasks s) i with
  | Some t =>
      match st t with
      | Waiting => if 0 <? sem_value s then Some (acquire i t s) else None
      | InFlight => Some (finish net i t s)
      | Done _ => None
      end
  | None => None
  end.

(** An interleaving is the list of the positions that move, in order. *)
Fixpoint play (net : network) (schedule : list nat) (s : loop_state)
  : option loop_state :=
  match schedule with
  | [] => Some s
  | i :: rest =>
      match move net i s with
      | Some s' => play net rest s'
      | None => None
      end
  end.




(** Three identifiers, two slots, answers arriving out of order: 1 and 2
    enter, 2 is answered, 3 enters, 3 is answered, 1 is answered. *)
Definition out_of_order : list nat := [0; 1; 1; 2; 2; 0]%nat.

Definition after_out_of_order : loop_state :=
  Eval vm_compute in
    match play Scenarios.net_404_for_2 out_of_order (initial 2 [1; 2; 3]) with
    | Some s => s
    | None => initial 2 [1; 2; 3]
    end.

End Schedules.

(* ================================================================== *)
(** ** Notions used to state more about the data contracts *)
(* ================================================================== *)

Module Contracts.
Import Py Pydantic Validator Ingestor.

(** The entries of [ValidationError.errors()], none when the model was
    built. *)
Definition errores {A} (v : validation A) : list error_detail :=
  match v with
  | Ok _ => []
  | Errors e es => e :: es
  end.



Definition obligatorios : list string :=
  [ "transaccion_id"; "email_cliente"; "monto_usd"; "fecha_transaccion" ]%string.







(** The loop of the batch filter gets past a record when the record is
    accepted or, being rejected, can be written by [json.dumps]. *)
Definition archivable (c : coercions) (today : date) (registro : dict) : bool :=
  match new_TransaccionVentas c today registro with
  | Ok _ => true
  | Errors _ _ => json_serializable (VDict registro)
  end.


(** A record that lacks its address, and one that gives the user under
    both the alias and the field name. *)
Definition registro_sin_email : dict :=
  [ ("transaccion_id"%string, VInt 7);
    ("monto_usd"%string, VFloat 10);
    ("fecha_transaccion"%string, VStr "2023-10-15") ].

Definition usuario_con_ambos_nombres : dict :=
  [ ("id_usuario"%string, VInt 99);
    ("id"%string, VInt 1);
    ("name"%string, VStr "Leanne Graham");
    ("email"%string, VStr "Sincere@april.biz") ].

(** A rejected record that [json.dumps] cannot write. *)
Definition registro_con_fecha : dict :=
  [ ("transaccion_id"%string, VInt 8);
    ("fecha_transaccion"%string, VDate (mkdate 2023 10 15)) ].

End Contracts.

(* ================================================================== *)
(** ** day-07-ingestor-generico.py: extraction, storage, orchestration *)
(* ================================================================== *)

Module Pipeline.
Import Py Pydantic Validator Ingestor Asyncio.

(** What the outside world does for one run: the answer to the GET on a
    URL, whether [open(ruta, 'w')] fails, the text that [json.dump] with
    [indent=4, ensure_ascii=False] writes, what has reached the file when
    [json.dump] gives up half way, and the elapsed time as printed. *)
Record entorno := mkentorno {
  red : string -> net_behaviour;
  abre : string -> option exn;
  json_indentado : value -> string;
  json_truncado : value -> string;
  segundos : string
}.

(** The files on disk: the latest entry for a path is its content. *)
Definition disco := list (string * string).

Fixpoint leer (ruta : string) (d : disco) : option string :=
  match d with
  | [] => None
  | (r, contenido) :: resto => if String.eqb r ruta then Some contenido else leer ruta resto
  end.

(** [respuesta.raise_for_status()]: an error for 400 and above. *)
Definition raise_for_status (status : Z) : outcome unit :=
  if 400 <=? status then Raise (mkexn ClientError "ClientResponseError")
  else Return tt.

(** [extraer_datos], undecorated: what it prints and what it returns. *)
Definition extraer_datos (self : IngestorGenerico) (env : entorno)
  : list string * outcome value :=
  let impreso :=
    [String.append "[Red] Iniciando extraccion asincrona desde: " (url self)] in
  match red env (url self) with
  | GetRaises e => (impreso, Raise e)
  | Responds status body =>
      match raise_for_status status with
      | Raise e => (impreso, Raise e)
      | Return _ =>
          match body with
          | JsonValue datos_crudos => (impreso, Return datos_crudos)
          | JsonRaises e => (impreso, Raise e)
          end
      end
  end.

Definition linea_telemetria (nombre tiempo : string) : string :=
  String.append "[Telemetria] La funcion '"
    (String.append nombre
       (String.append "' tardo " (String.append tiempo " segundos."))).

(** [medir_tiempo_ejecucion]: the wrapper around a call of [func]. *)
Definition medir_tiempo_ejecucion {A} (nombre : string)
  (func : list string * outcome A) (tiempo : string) : list string * outcome A :=
  match func with
  | (impreso, Return resultado) =>
      (impreso ++ [linea_telemetria nombre tiempo], Return resultado)
  | (impreso, Raise e) => (impreso, Raise e)
  end.

(** [guardar_json_local]: what is printed, the disk afterwards, and how
    the call ends.  Opening for writing creates or empties the file, so
    a dump that fails leaves a truncated file behind. *)
Definition guardar_json_local (env : entorno) (datos : list dict)
  (ruta_archivo : string) (d : disco) : list string * disco * outcome unit :=
  match abre env ruta_archivo with
  | Some e => ([], d, Raise e)
  | None =>
      let documento := VList (map VDict datos) in
      if json_serializable documento then
        ([String.append "[I/O] Datos guardados exitosamente en: " ruta_archivo],
         (ruta_archivo, json_indentado env documento) :: d,
         Return tt)
      else
        ([],
         (ruta_archivo, json_truncado env documento) :: d,
         Raise (mkexn TypeError "Object is not JSON serializable"))
  end.

(** [for registro in datos_crudos] on whatever the body parsed to. *)
Definition iterar (v : value) : outcome (list value) :=
  match v with
  | VList items => Return items
  | VDict kv => Return (map (fun p => VStr (fst p)) kv)
  | VStr s =>
      Return (map (fun c => VStr (String c EmptyString)) (list_ascii_of_string s))
  | _ => Raise (mkexn TypeError "object is not iterable")
  end.

(** The mappings at the head of the items, and whether an item that is
    not a mapping, which the model class cannot be called on, follows
    them. *)
Fixpoint mapeos_iniciales (items : list value) : list dict * bool :=
  match items with
  | [] => ([], false)
  | VDict kv :: resto =>
      let '(registros, corta) := mapeos_iniciales resto in (kv :: registros, corta)
  | _ :: _ => ([], true)
  end.

(** [list(self.validar_en_flujo(datos_crudos))]: the generator runs over
    the leading mappings and raises [TypeError] at the first item that
    is not one.  [None] would mean that the fuel given to [list_of] did
    not suffice. *)
Definition consumir (self : IngestorGenerico) (datos_crudos : value)
  : option (list string * outcome (list dict)) :=
  match iterar datos_crudos with
  | Raise e => Some ([banner], Raise e)
  | Return items =>
      let '(registros, corta) := mapeos_iniciales items in
      match list_of self (S (List.length registros))
                    (validar_en_flujo self registros) with
      | None => None
      | Some (impreso, limpios) =>
          if corta
          then Some (impreso,
                     Raise (mkexn TypeError "argument after ** must be a mapping"))
          else Some (impreso, Return limpios)
      end
  end.

Definition linea_exito (n : nat) : string :=
  String.append "[Exito] Pipeline finalizado. "
    (String.append (str_of_int (Z.of_nat n)) " registros procesados.").

(** [ejecutar_pipeline] *)
Definition ejecutar_pipeline (self : IngestorGenerico) (env : entorno)
  (ruta_destino : string) (d : disco)
  : option (list string * disco * outcome unit) :=
  match medir_tiempo_ejecucion "extraer_datos" (extraer_datos self env)
          (segundos env) with
  | (impreso1, Raise e) => Some (impreso1, d, Raise e)
  | (impreso1, Return datos_crudos) =>
      match consumir self datos_crudos with
      | None => None
      | Some (impreso2, Raise e) => Some (impreso1 ++ impreso2, d, Raise e)
      | Some (impreso2, Return datos_limpios) =>
          match guardar_json_local env datos_limpios ruta_destino d with
          | (impreso3, d', Raise e) =>
              Some (impreso1 ++ impreso2 ++ impreso3, d', Raise e)
          | (impreso3, d', Return _) =>
              Some (impreso1 ++ impreso2 ++ impreso3
                    ++ [linea_exito (List.length datos_limpios)],
                    d', Return tt)
          end
      end
  end.

Definition URL_API : string := "https://jsonplaceholder.typicode.com/users".
Definition ARCHIVO_SALIDA : string := "usuarios_validados.json".


(** What a run prints up to the point where it stores its records, when
    the answer is a list of mappings. *)
Definition impreso_hasta_guardar (self : IngestorGenerico) (env : entorno)
  (datos : list dict) : list string :=
  [String.append "[Red] Iniciando extraccion asincrona desde: " (url self);
   linea_telemetria "extraer_datos" (segundos env);
   banner]
  ++ lineas_descarte
       (Spec.rejected (Spec.validateStream (modelo_pydantic self) datos)).

(** *** Sample environments *)

Definition json_demo (v : value) : string :=
  match v with
  | VList items => String.concat "; " (map Scenarios.json_keys items)
  | _ => Scenarios.json_keys v
  end.

(** The test API answers with two users, the second without an address. *)
Definition entorno_demo : entorno :=
  mkentorno
    (fun _ => Responds 200 (JsonValue (VList [VDict Scenarios.usuario_1;
                                               VDict Scenarios.usuario_2])))
    (fun _ => None)
    json_demo
    (fun _ => EmptyString)
    "0.2501".

(** The test API is down. *)
Definition entorno_503 : entorno :=
  mkentorno (fun _ => Responds 503 (JsonValue VNone)) (fun _ => None)
    json_demo (fun _ => EmptyString) "0.2501".

(** The answer holds something that is not a mapping. *)
Definition entorno_mixto : entorno :=
  mkentorno
    (fun _ => Responds 200 (JsonValue (VList [VDict Scenarios.usuario_2;
                                               VInt 7;
                                               VDict Scenarios.usuario_1])))
    (fun _ => None) json_demo (fun _ => EmptyString) "0.2501".

(** A sales API that answers with the batch of the validator script. *)
Definition entorno_ventas : entorno :=
  mkentorno
    (fun _ => Responds 200 (JsonValue (VList (map VDict Scenarios.lote_json_sucio))))
    (fun _ => None) json_demo (fun _ => "[")%string "0.2501".

Definition disco_previo : disco := [("usuarios_validados.json"%string, "[]"%string)].

End Pipeline.

(* ================================================================== *)
(** ** day-02-geradores.py: decorators and the log context manager *)
(* ================================================================== *)

Module Decoradores.

Inductive clase := ConnectionError | ValueError | OtraExcepcion.

Record excepcion := mkexcepcion { clase_de : clase; mensaje : string }.

Inductive resultado (A : Type) :=
| Devuelve (a : A)
| Lanza (e : excepcion).
Arguments Devuelve {A} a.
Arguments Lanza {A} e.

(** What a call does besides returning: lines on standard output and
    calls of [time.sleep]. *)
Inductive efecto :=
| Imprime (linea : string)
| Duerme (segundos : Z).

Definition traza := list efecto.

(** [time.sleep(delay)] refuses a negative length. *)
Definition sleep (delay : Z) : traza * resultado unit :=
  if delay <? 0 then
    ([], Lanza (mkexcepcion ValueError "sleep length must be non-negative"))
  else ([Duerme delay], Devuelve tt).

Definition linea_monitoreo (nombre tiempo : string) : string :=
  String.append "[Monitoreo] La función '"
    (String.append nombre
       (String.append "' tardó " (String.append tiempo " segundos."))).

(** [timeit]: the wrapper around one call of [func]; [tiempo] is the
    elapsed time as printed. *)
Definition timeit {A} (nombre : string) (func : traza * resultado A)
  (tiempo : string) : traza * resultado A :=
  match func with
  | (t, Devuelve r) => (t ++ [Imprime (linea_monitoreo nombre tiempo)], Devuelve r)
  | (t, Lanza e) => (t, Lanza e)
  end.

Definition linea_advertencia (intento max_intentos : Z) (e : excepcion) : string :=
  String.append "[Advertencia] Intento "
    (String.append (Py.str_of_int intento)
       (String.append "/"
          (String.append (Py.str_of_int max_intentos)
             (String.append " fallido: " (mensaje e))))).

Definition linea_critica (nombre : string) (max_intentos : Z) : string :=
  String.append "[Error Crítico] La función '"
    (String.append nombre
       (String.append "' falló tras "
          (String.append (Py.str_of_int max_intentos) " intentos."))).

(** The [for intento in range(1, max_intentos + 1)] loop of [retry]:
    [func k] is what the [k]-th call of the decorated function does,
    [restantes] the iterations left.  Falling off the loop, the wrapper
    returns [None]. *)
Fixpoint retry_bucle {A} (nombre : string) (max_intentos delay : Z)
  (func : nat -> traza * resultado A) (restantes : nat) (intento : Z) (k : nat)
  : traza * resultado (option A) :=
  match restantes with
  | O => ([], Devuelve None)
  | S restantes' =>
      match func k with
      | (t, Devuelve r) => (t, Devuelve (Some r))
      | (t, Lanza e) =>
          let aviso := Imprime (linea_advertencia intento max_intentos e) in
          if intento =? max_intentos then
            (t ++ [aviso; Imprime (linea_critica nombre max_intentos)], Lanza e)
          else
            match sleep delay with
            | (_, Lanza e') => (t ++ [aviso], Lanza e')
            | (dormido, Devuelve _) =>
                let '(t', r) :=
                  retry_bucle nombre max_intentos delay func restantes'
                              (intento + 1) (S k) in
                (t ++ [aviso] ++ dormido ++ t', r)
            end
      end
  end.

(** [retry(max_intentos, delay)(func)], called once. *)
Definition retry {A} (max_intentos delay : Z) (nombre : string)
  (func : nat -> traza * resultado A) : traza * resultado (option A) :=
  retry_bucle nombre max_intentos delay func (Z.to_nat max_intentos) 1 0.

(** *** The log file and [ManejadorLogs] *)

Record archivo := mkarchivo {
  escrito : list string;      (* the content, chunk by chunk *)
  cerrado : bool
}.

Definition write (f : archivo) (texto : string) : archivo * resultado unit :=
  if cerrado f then
    (f, Lanza (mkexcepcion ValueError "I/O operation on closed file."))
  else (mkarchivo (escrito f ++ [texto]) false, Devuelve tt).

Definition cabecera (ahora : string) : string :=
  String.append (String "010" "--- Inicio de conexión: ")
    (String.append ahora (String.append " ---" (String "010" EmptyString))).

(** [__enter__]: the file is opened for appending to [previo]; [ahora] is
    [time.ctime()]. *)
Definition enter (previo : list string) (ahora : string) : archivo :=
  mkarchivo (previo ++ [cabecera ahora]) false.

Definition linea_estado (exc : option excepcion) : string :=
  match exc with
  | Some e =>
      String.append "Estado: ERROR - "
        (String.append (mensaje e) (String "010" EmptyString))
  | None => String.append "Estado: ÉXITO" (String "010" EmptyString)
  end.

Definition close (f : archivo) : archivo := mkarchivo (escrito f) true.

(** [__exit__]: writes the state, closes, and returns [False]; the
    [write] raises when the body has closed the file already. *)
Definition exit (f : archivo) (exc : option excepcion) : archivo * resultado bool :=
  match write f (linea_estado exc) with
  | (f', Lanza e) => (f', Lanza e)
  | (f', Devuelve _) => (close f', Devuelve false)
  end.

(** [with ManejadorLogs(ruta) as log: cuerpo]: the exception of the
    body, if any, is handed to [__exit__] and, unless [__exit__] returns
    a true value, raised again; an exception of [__exit__] itself
    replaces it. *)
Definition con_ManejadorLogs {A} (previo : list string) (ahora : string)
  (cuerpo : archivo -> archivo * traza * resultado (option A))
  : archivo * traza * resultado (option A) :=
  match cuerpo (enter previo ahora) with
  | (f, t, Devuelve r) =>
      match exit f None with
      | (f', Lanza e') => (f', t, Lanza e')
      | (f', Devuelve _) => (f', t, Devuelve r)
      end
  | (f, t, Lanza e) =>
      match exit f (Some e) with
      | (f', Lanza e') => (f', t, Lanza e')
      | (f', Devuelve silencia) =>
          if silencia then (f', t, Devuelve None) else (f', t, Lanza e)
      end
  end.

(** *** The simulated connection *)

(** The body of [conectar_bd_simulada] for one draw of
    [random.random()]. *)
Definition conectar_cuerpo (sorteo : float) : traza * resultado bool :=
  if PrimFloat.ltb sorteo 0.6 then
    ([Imprime "Intentando establecer conexión a la base de datos..."],
     Lanza (mkexcepcion ConnectionError "Timeout de red al conectar al host."))
  else
    ([Imprime "Intentando establecer conexión a la base de datos...";
      Imprime "¡Conexión establecida con éxito!";
      Duerme 1],
     Devuelve true).

(** [conectar_bd_simulada], decorated with [timeit] over
    [retry(max_intentos=3, delay=2)]; [azar k] is the [k]-th draw. *)
Definition conectar_bd_simulada (azar : nat -> float) (tiempo : string)
  : traza * resultado (option bool) :=
  timeit "conectar_bd_simulada"
    (retry 3 2 "conectar_bd_simulada" (fun k => conectar_cuerpo (azar k)))
    tiempo.

Definition es_ConnectionError (e : excepcion) : bool :=
  match clase_de e with ConnectionError => true | _ => false end.

Definition detalle : string :=
  String.append "Detalle: Los datos fueron extraídos correctamente."
    (String "010" EmptyString).

Definition linea_detenido : string :=
  "El pipeline se detuvo debido a un fallo persistente de conexión.".

(** [ejecutar_pipeline]; a body that runs to its end yields [None], as
    the function itself does. *)
Definition ejecutar_pipeline (azar : nat -> float) (tiempo ahora : string)
  (previo : list string) : archivo * traza * resultado (option unit) :=
  con_ManejadorLogs previo ahora
    (fun log =>
       match conectar_bd_simulada azar tiempo with
       | (t, Devuelve _) =>
           match write log detalle with
           | (log', Devuelve _) => (log', t, Devuelve None)
           | (log', Lanza e) =>
               if es_ConnectionError e
               then (log', t ++ [Imprime linea_detenido], Devuelve None)
               else (log', t, Lanza e)
           end
       | (t, Lanza e) =>
           if es_ConnectionError e
           then (log, t ++ [Imprime linea_detenido], Devuelve None)
           else (log, t, Lanza e)
       end).

(** *** Notions and samples used below *)

(** What [retry] prints and how long it pauses when call [j] (attempt
    [j + 1]) has failed with [e j] after the effects [tr j], and another
    attempt follows. *)
Definition intento_fallido (max_intentos delay : Z) (tr : nat -> traza)
  (e : nat -> excepcion) (j : nat) : traza :=
  tr j ++ [Imprime (linea_advertencia (Z.of_nat j + 1) max_intentos (e j));
           Duerme delay].

Definition sin_red : excepcion :=
  mkexcepcion ConnectionError "Timeout de red al conectar al host.".

(** Whether one of the three draws lets the connection through. *)
Definition conecta (azar : nat -> float) : bool :=
  existsb (fun k => negb (PrimFloat.ltb (azar k) 0.6)) [0; 1; 2]%nat.

Definition excepcion_de {A} (r : resultado A) : option excepcion :=
  match r with
  | Lanza e => Some e
  | Devuelve _ => None
  end.

(** A database that answers at the third attempt, and one that never
    does. *)
Definition al_tercero (k : nat) : traza * resultado Z :=
  match k with
  | 0%nat => ([], Lanza (mkexcepcion ConnectionError "uno"))
  | 1%nat => ([], Lanza (mkexcepcion OtraExcepcion "dos"))
  | _ => ([Imprime "listo"], Devuelve 42)
  end.

Definition nunca (k : nat) : traza * resultado Z :=
  ([], Lanza (mkexcepcion ConnectionError (Py.str_of_int (Z.of_nat k)))).

Definition azar_malo (k : nat) : float := 0.1%float.

End Decoradores.

(* ================================================================== *)
(** ** day-01-geradores.py: the error filter over a log file *)
(* ================================================================== *)

Module Filtro.
Import Pipeline.

Definition LF : ascii := "010"%char.
Definition CR : ascii := "013"%char.

(** Reading a file opened in text mode with the default [newline=None]:
    a carriage return, with the line feed that follows it if there is
    one, arrives as one line feed. *)
Fixpoint universal_newlines (s : string) : string :=
  match s with
  | EmptyString => EmptyString
  | String c rest =>
      if Ascii.eqb c CR then
        match rest with
        | String d rest' =>
            if Ascii.eqb d LF then String LF (universal_newlines rest')
            else String LF (universal_newlines rest)
        | EmptyString => String LF EmptyString
        end
      else String c (universal_newlines rest)
  end.

(** [for linea in archivo]: the lines of the text, each with the line
    feed that ends it; the last one may lack it. *)
Fixpoint lineas (s : string) : list string :=
  match s with
  | EmptyString => []
  | String c rest =>
      if Ascii.eqb c LF then String c EmptyString :: lineas rest
      else
        match lineas rest with
        | [] => [String c EmptyString]
        | l :: ls => String c l :: ls
        end
  end.

(** [sub in s] *)
Fixpoint contiene (sub s : string) : bool :=
  match s with
  | EmptyString => String.prefix sub EmptyString
  | String _ rest => String.prefix sub s || contiene sub rest
  end.

(** What the generator yields over a file that holds [contenido]; the
    [strip] is the ASCII one of [Str]. *)
Definition errores_de (contenido : string) : list string :=
  map Str.strip
    (filter (contiene "ERROR") (lineas (universal_newlines contenido))).

(** [filtrar_errores_log(ruta_archivo)], consumed to its end.  Nothing
    runs before the first [next], which opens the file; [None] stands
    for the [FileNotFoundError] of [open]. *)
Definition filtrar_errores_log (d : disco) (ruta_archivo : string)
  : option (list string) :=
  option_map errores_de (leer ruta_archivo d).

Definition archivo_entrada : string := "dataset_masivo_logs.csv".
Definition archivo_salida : string := "solo_errores.csv".

Inductive fin :=
| Termina
| FileNotFoundError (ruta : string).

(** The text that the [write] calls of the loop add up to. *)
Definition escrito (lineas_con_errores : list string) : string :=
  fold_right
    (fun linea resto =>
       String.append (String.append linea (String LF EmptyString)) resto)
    EmptyString lineas_con_errores.

(** The script at the end of the file: what it prints, the disk it
    leaves, and how it ends.  The destination is opened, and so
    emptied, before the generator opens the source; a line feed is
    written as it is. *)
Definition script (d : disco) : list string * disco * fin :=
  let d1 := (archivo_salida, EmptyString) :: d in
  let buscando :=
    String.append "Buscando errores en " (String.append archivo_entrada "...") in
  match filtrar_errores_log d1 archivo_entrada with
  | None => ([buscando], d1, FileNotFoundError archivo_entrada)
  | Some lineas_con_errores =>
      ([buscando;
        String.append "¡Proceso terminado! Los errores se han extraído a "
          (String.append archivo_salida ".")],
       (archivo_salida, escrito lineas_con_errores) :: d1,
       Termina)
  end.

(** *** Notions and samples used below *)


Definition disco_de (r : list string * disco * fin) : disco := snd (fst r).



End Filtro.

(* ================================================================== *)
(** ** day-06-clean-code-etl.py: the two versions of the sales step *)
(* ================================================================== *)

Module CleanCode.
Import Py.

Inductive error :=
| KeyError (clave : string)
| TypeError
| OverflowError.

Inductive resultado (A : Type) :=
| Devuelve (a : A)
| Lanza (e : error).
Arguments Devuelve {A} a.
Arguments Lanza {A} e.

(** [float(n)] for an [int]: the nearest double, ties to even, and
    nothing beyond the range of the doubles. *)
Definition float_of_int (n : Z) : option float :=
  match SpecFloat.binary_normalize FloatOps.prec FloatOps.emax n 0 false with
  | SpecFloat.S754_infinity _ => None
  | sf => Some (FloatOps.SF2Prim sf)
  end.

(** The left operand of [*] or [+] when the right one is a [float]. *)
Definition operando (v : value) : resultado float :=
  match v with
  | VBool b => Devuelve (if b then 1%float else 0%float)
  | VInt n =>
      match float_of_int n with
      | Some x => Devuelve x
      | None => Lanza OverflowError
      end
  | VFloat x => Devuelve x
  | _ => Lanza TypeError
  end.

(** [v * f] and [v + f] for a float [f] *)
Definition por (v : value) (f : float) : resultado float :=
  match operando v with
  | Devuelve x => Devuelve (PrimFloat.mul x f)
  | Lanza e => Lanza e
  end.

Definition mas (v : value) (f : float) : resultado float :=
  match operando v with
  | Devuelve x => Devuelve (PrimFloat.add x f)
  | Lanza e => Lanza e
  end.

(** [v > 0] *)
Definition mayor_que_cero (v : value) : resultado bool :=
  match v with
  | VBool b => Devuelve b
  | VInt n => Devuelve (0 <? n)
  | VFloat x => Devuelve (PrimFloat.ltb 0 x)
  | _ => Lanza TypeError
  end.

(** [v == s] for a string [s] *)
Definition igual_a (v : value) (s : string) : bool :=
  match v with
  | VStr t => String.eqb t s
  | _ => false
  end.

(** [d.get(clave, defecto)], [d[clave]] and [d[clave] = v] *)
Definition get_o (d : dict) (clave : string) (defecto : value) : value :=
  match lookup clave d with
  | Some v => v
  | None => defecto
  end.

Definition getitem (d : dict) (clave : string) : resultado value :=
  match lookup clave d with
  | Some v => Devuelve v
  | None => Lanza (KeyError clave)
  end.

Fixpoint setitem (clave : string) (v : value) (d : dict) : dict :=
  match d with
  | [] => [(clave, v)]
  | (k, w) :: resto =>
      if String.eqb k clave then (k, v) :: resto
      else (k, w) :: setitem clave v resto
  end.

(** The dictionaries are objects: a list holds references to them, and
    a function that is handed a list sees the caller's objects. *)
Definition heap := list dict.

Definition deref (h : heap) (r : nat) : dict := nth r h [].

Fixpoint poner (r : nat) (d : dict) (h : heap) : heap :=
  match h, r with
  | [], _ => []
  | _ :: resto, O => d :: resto
  | x :: resto, S r' => x :: poner r' d resto
  end.

Definition TASA_IVA_SV : float := 0.13%float.

Section Redondeo.

(** [round(x, 2)] on a float *)
Variable round2 : float -> float.

(** The test of [process], with the short circuit of [and]. *)
Definition condicion_process (d : dict) : resultado bool :=
  if igual_a (get_o d "st" VNone) "A"
  then mayor_que_cero (get_o d "amt" (VInt 0))
  else Devuelve false.

(** The loop of [process]: [h] is the heap, [data] what is left of the
    list, [res] the list built so far. *)
Fixpoint process_bucle (h : heap) (data res : list nat)
  : heap * resultado (list nat) :=
  match data with
  | [] => (h, Devuelve res)
  | d :: data' =>
      match condicion_process (deref h d) with
      | Lanza e => (h, Lanza e)
      | Devuelve false => process_bucle h data' res
      | Devuelve true =>
          match getitem (deref h d) "amt" with
          | Lanza e => (h, Lanza e)
          | Devuelve amt =>
              match por amt 0.13%float with
              | Lanza e => (h, Lanza e)
              | Devuelve tax =>
                  match mas amt tax with
                  | Lanza e => (h, Lanza e)
                  | Devuelve total =>
                      let h1 :=
                        poner d (setitem "tax" (VFloat (round2 tax)) (deref h d)) h in
                      let h2 :=
                        poner d (setitem "total" (VFloat (round2 total)) (deref h1 d)) h1 in
                      process_bucle h2 data' (res ++ [d])
                  end
              end
          end
      end
  end.

Definition process (h : heap) (data : list nat) : heap * resultado (list nat) :=
  process_bucle h data [].

Definition condicion_valida (trx : dict) : resultado bool :=
  if igual_a (get_o trx "estado" VNone) "ACTIVO"
  then mayor_que_cero (get_o trx "monto_usd" (VInt 0))
  else Devuelve false.

(** [filtrar_transacciones_validas]: the comprehension reads the
    objects and builds a new list of the same references. *)
Fixpoint filtrar_transacciones_validas (h : heap) (transacciones : list nat)
  : resultado (list nat) :=
  match transacciones with
  | [] => Devuelve []
  | trx :: resto =>
      match condicion_valida (deref h trx) with
      | Lanza e => Lanza e
      | Devuelve conserva =>
          match filtrar_transacciones_validas h resto with
          | Lanza e => Lanza e
          | Devuelve validas =>
              Devuelve (if conserva then trx :: validas else validas)
          end
      end
  end.

(** [calcular_impuestos_y_totales]: [copy()] makes a new object with
    the entries of the old one. *)
Definition calcular_impuestos_y_totales (h : heap) (transaccion : nat)
  : heap * resultado nat :=
  let trx_enriquecida := List.length h in
  let h1 := h ++ [deref h transaccion] in
  match getitem (deref h1 trx_enriquecida) "monto_usd" with
  | Lanza e => (h1, Lanza e)
  | Devuelve monto_base =>
      match por monto_base TASA_IVA_SV with
      | Lanza e => (h1, Lanza e)
      | Devuelve impuesto =>
          let h2 :=
            poner trx_enriquecida
              (setitem "impuesto_usd" (VFloat (round2 impuesto))
                 (deref h1 trx_enriquecida)) h1 in
          match mas monto_base impuesto with
          | Lanza e => (h2, Lanza e)
          | Devuelve total =>
              (poner trx_enriquecida
                 (setitem "total_usd" (VFloat (round2 total))
                    (deref h2 trx_enriquecida)) h2,
               Devuelve trx_enriquecida)
          end
      end
  end.

(** The comprehension of [procesar_pipeline_ventas]. *)
Fixpoint enriquecer (h : heap) (transacciones_validas : list nat)
  : heap * resultado (list nat) :=
  match transacciones_validas with
  | [] => (h, Devuelve [])
  | trx :: resto =>
      match calcular_impuestos_y_totales h trx with
      | (h1, Lanza e) => (h1, Lanza e)
      | (h1, Devuelve nueva) =>
          match enriquecer h1 resto with
          | (h2, Lanza e) => (h2, Lanza e)
          | (h2, Devuelve nuevas) => (h2, Devuelve (nueva :: nuevas))
          end
      end
  end.

Definition procesar_pipeline_ventas (h : heap) (datos_crudos : list nat)
  : heap * resultado (list nat) :=
  match filtrar_transacciones_validas h datos_crudos with
  | Lanza e => (h, Lanza e)
  | Devuelve transacciones_validas => enriquecer h transacciones_validas
  end.

(** What [process] leaves in the object of a transaction it let
    through. *)
Definition gravada (h h' : heap) (d : nat) : Prop :=
  exists amt tax total,
    lookup "amt" (deref h d) = Some amt
    /\ por amt 0.13%float = Devuelve tax
    /\ mas amt tax = Devuelve total
    /\ lookup "tax" (deref h' d) = Some (VFloat (round2 tax))
    /\ lookup "total" (deref h' d) = Some (VFloat (round2 total)).

End Redondeo.

(** The two heaps agree on every key that [process] does not write. *)
Definition otras_claves (h h' : heap) : Prop :=
  forall r k, k <> "tax"%string -> k <> "total"%string ->
              lookup k (deref h' r) = lookup k (deref h r).


(** *** Notions and samples used below *)

(** The transactions that the test of [process] lets through. *)
Definition pasa (h : heap) (d : nat) : bool :=
  match condicion_process (deref h d) with
  | Devuelve true => true
  | _ => false
  end.

(** The batches of the entry point, as a heap and the references into
    it, and a rounding good enough for them. *)
Definition lote_ventas_crudas : heap :=
  [ [("id"%string, VInt 1); ("estado"%string, VStr "ACTIVO"); ("monto_usd"%string, VFloat 100)];
    [("id"%string, VInt 2); ("estado"%string, VStr "INACTIVO"); ("monto_usd"%string, VFloat 50)];
    [("id"%string, VInt 3); ("estado"%string, VStr "ACTIVO"); ("monto_usd"%string, VFloat (-10))];
    [("id"%string, VInt 4); ("estado"%string, VStr "ACTIVO"); ("monto_usd"%string, VFloat 250.5)] ].

Definition datos_viejos : heap :=
  [ [("st"%string, VStr "A"); ("amt"%string, VInt 100)];
    [("st"%string, VStr "I"); ("amt"%string, VInt 50)] ].

Definition sin_redondeo (x : float) : float := x.

End CleanCode.

(* ================================================================== *)
(** ** Facts about the event loop of day-04 *)
(* ================================================================== *)

Module AsyncioFacts.
Import Py Asyncio.

Lemma filter_update_length (p : task -> bool) :
  forall l i x y,
    nth_error l i = Some y ->
    (List.length (filter p (update i x l)) + b2n (p y)
     = List.length (filter p l) + b2n (p x))%nat.
Proof.
  induction l as [|a l IH]; intros [|i] x y H; simpl in *; try discriminate.
  - injection H as ->. destruct (p x), (p y); simpl; lia.
  - specialize (IH i x y H). destruct (p a); simpl; lia.
Qed.

Lemma finish_sem net i t s : sem_value (finish net i t s) = sem_value s + 1.
Proof. unfold finish. destruct (fetch_entity_data _ _ _); reflexivity. Qed.

Lemma finish_tasks net i t s :
  tasks (finish net i t s)
  = update i (mktask (request_no t) (entity_id t) (Done (task_outcome net t)))
           (tasks s).
Proof. unfold finish, task_outcome. destruct (fetch_entity_data _ _ _); reflexivity. Qed.

Lemma in_flight_acquire i t s :
  nth_error (tasks s) i = Some t -> st t = Waiting ->
  in_flight (acquire i t s) = in_flight s + 1.
Proof.
  intros Hn Hst. unfold in_flight, acquire; simpl.
  pose proof (filter_update_length is_in_flight (tasks s) i
                (mktask (request_no t) (entity_id t) InFlight) t Hn) as H.
  assert (E : is_in_flight t = false) by (unfold is_in_flight; now rewrite Hst).
  rewrite E in H.
  change (is_in_flight (mktask (request_no t) (entity_id t) InFlight))
    with true in H.
  unfold b2n in H. lia.
Qed.

Lemma in_flight_finish net i t s :
  nth_error (tasks s) i = Some t -> st t = InFlight ->
  in_flight (finish net i t s) = in_flight s - 1.
Proof.
  intros Hn Hst. unfold in_flight. rewrite finish_tasks.
  pose proof (filter_update_length is_in_flight (tasks s) i
                (mktask (request_no t) (entity_id t) (Done (task_outcome net t)))
                t Hn) as H.
  assert (E : is_in_flight t = true) by (unfold is_in_flight; now rewrite Hst).
  rewrite E in H.
  change (is_in_flight
            (mktask (request_no t) (entity_id t) (Done (task_outcome net t))))
    with false in H.
  unfold b2n in H. lia.
Qed.

(** Every step is an acquire or a release, and moves the counter and the
    number of holders in opposite directions. *)
Lemma step_counter net s s' :
  step net s s' ->
  (sem_value s' = sem_value s - 1 /\ in_flight s' = in_flight s + 1)
  \/ (sem_value s' = sem_value s + 1 /\ in_flight s' = in_flight s - 1).
Proof.
  intros [s0 i t Hn Hst Hpos | s0 i t Hn Hst].
  - left. split; [reflexivity | now apply in_flight_acquire].
  - right. split; [apply finish_sem | now apply in_flight_finish].
Qed.

Lemma step_gate_inv net capacity s s' :
  gate_inv capacity s -> step net s s' -> gate_inv capacity s'.
Proof.
  intros [Hge Hsum] Hstep.
  assert (Hpos : sem_value s' = sem_value s - 1 -> 0 < sem_value s).
  { destruct Hstep as [s0 i t Hn Hst Hpos | s0 i t Hn Hst]; [easy|].
    rewrite finish_sem. lia. }
  destruct (step_counter _ _ _ Hstep) as [[Hv Hf] | [Hv Hf]];
    unfold gate_inv; rewrite Hv, Hf; [specialize (Hpos Hv)|]; lia.
Qed.

Lemma make_tasks_none_in_flight ids :
  forall k, filter is_in_flight (make_tasks k ids) = [].
Proof. induction ids as [|p ids IH]; intros k; simpl; [reflexivity | apply IH]. Qed.

Lemma initial_gate_inv sem ids : 0 <= sem -> gate_inv sem (initial sem ids).
Proof.
  intros H. unfold gate_inv, initial, in_flight; simpl.
  rewrite make_tasks_none_in_flight. simpl. lia.
Qed.

Lemma reachable_gate_inv net capacity s0 s :
  gate_inv capacity s0 -> reachable net s0 s -> gate_inv capacity s.
Proof.
  intros H0 Hr. induction Hr as [|s s' _ IH Hstep]; [assumption|].
  eapply step_gate_inv; eauto.
Qed.

Lemma Semaphore_Return capacity sem :
  Semaphore capacity = Return sem -> sem = capacity /\ 0 <= capacity.
Proof.
  unfold Semaphore. destruct (capacity <? 0) eqn:E; [discriminate|].
  intros [= <-]. apply Z.ltb_ge in E. split; [reflexivity | assumption].
Qed.

(** *** Tasks keep their identity and deliver their own outcome *)

Lemma update_same_requests i t x :
  forall l, nth_error l i = Some x ->
  request_no t = request_no x -> entity_id t = entity_id x ->
  same_requests (update i t l) l.
Proof.
  unfold same_requests. revert i.
  induction i as [|i IH]; intros [|a l] Hn Hr He; simpl in *; try discriminate.
  - injection Hn as ->. now rewrite Hr, He.
  - f_equal. now apply IH.
Qed.

Lemma update_Forall (P : task -> Prop) t :
  forall i l, Forall P l -> P t -> Forall P (update i t l).
Proof.
  induction i as [|i IH]; intros [|a l] Hl Ht; simpl; try constructor;
    inversion Hl; subst; auto.
Qed.

Lemma step_tasks net s s' :
  step net s s' ->
  exists i t ph,
    nth_error (tasks s) i = Some t
    /\ tasks s' = update i (mktask (request_no t) (entity_id t) ph) (tasks s)
    /\ (ph = InFlight \/ ph = Done (task_outcome net t)).
Proof.
  intros [s0 i t Hn Hst Hpos | s0 i t Hn Hst]; exists i, t.
  - exists InFlight. auto.
  - exists (Done (task_outcome net t)). rewrite finish_tasks. auto.
Qed.

Lemma step_same_requests net s s' :
  step net s s' -> same_requests (tasks s') (tasks s).
Proof.
  intros H. destruct (step_tasks _ _ _ H) as (i & t & ph & Hn & -> & _).
  now apply update_same_requests with (x := t).
Qed.

Lemma step_done_right net s s' :
  done_right net (tasks s) -> step net s s' -> done_right net (tasks s').
Proof.
  intros Hd H. destruct (step_tasks _ _ _ H) as (i & t & ph & Hn & -> & Hph).
  apply update_Forall; [assumption|].
  simpl. intros r Hr. destruct Hph as [-> | ->]; [discriminate|].
  injection Hr as <-. reflexivity.
Qed.

Lemma make_tasks_done_right net ids : forall k, done_right net (make_tasks k ids).
Proof.
  induction ids as [|p ids IH]; intros k; simpl; constructor;
    [intros r; simpl; discriminate | apply IH].
Qed.

Lemma reachable_tasks net sem ids s :
  reachable net (initial sem ids) s ->
  same_requests (tasks s) (make_tasks 0 ids) /\ done_right net (tasks s).
Proof.
  intros Hr. induction Hr as [|s s' _ [IHs IHd] Hstep].
  - split; [reflexivity | apply make_tasks_done_right].
  - split.
    + unfold same_requests in *. rewrite <- IHs.
      exact (step_same_requests net _ _ Hstep).
    + eapply step_done_right; eauto.
Qed.

Lemma same_requests_outcomes net l l' :
  same_requests l l' -> map (task_outcome net) l = map (task_outcome net) l'.
Proof.
  unfold same_requests. revert l'.
  induction l as [|a l IH]; intros [|b l'] H; simpl in *; try discriminate; auto.
  injection H as Hr He Hrest. f_equal; [|now apply IH].
  unfold task_outcome. now rewrite Hr, He.
Qed.

Lemma gather_results_done_right net :
  forall l rs, gather_results l = Some rs -> done_right net l ->
  rs = map (task_outcome net) l.
Proof.
  induction l as [|t l IH]; simpl; intros rs H Hd.
  - now injection H as <-.
  - inversion Hd as [|? ? Ht Hl]; subst.
    destruct (st t) eqn:Est; try discriminate.
    destruct (gather_results l) as [rs'|]; [|discriminate].
    injection H as <-. f_equal; [now apply Ht | now apply IH].
Qed.

(** Whatever the interleaving, a finished batch holds, position by
    position, the outcome of the request made for that identifier. *)
Lemma reachable_results net sem ids s rs :
  reachable net (initial sem ids) s ->
  gather_results (tasks s) = Some rs ->
  rs = expected_results net ids.
Proof.
  intros Hr Hg. destruct (reachable_tasks _ _ _ _ Hr) as [Hs Hd].
  rewrite (gather_results_done_right net _ _ Hg Hd).
  unfold expected_results. now apply same_requests_outcomes.
Qed.

Lemma expected_results_length net ids :
  List.length (expected_results net ids) = List.length ids.
Proof.
  unfold expected_results. rewrite length_map.
  generalize 0%nat. induction ids as [|p ids IH]; intros k; simpl; auto.
Qed.

(** *** Termination and progress *)

Lemma step_work net s s' : step net s s' -> S (work s') = work s.
Proof.
  intros [s0 i t Hn Hst Hpos | s0 i t Hn Hst]; unfold work.
  - simpl.
    pose proof (filter_update_length is_waiting (tasks s0) i
                  (mktask (request_no t) (entity_id t) InFlight) t Hn) as Hw.
    pose proof (filter_update_length is_in_flight (tasks s0) i
                  (mktask (request_no t) (entity_id t) InFlight) t Hn) as Hf.
    assert (Ew : is_waiting t = true) by (unfold is_waiting; now rewrite Hst).
    assert (Ef : is_in_flight t = false) by (unfold is_in_flight; now rewrite Hst).
    rewrite Ew in Hw. rewrite Ef in Hf.
    change (is_waiting (mktask (request_no t) (entity_id t) InFlight))
      with false in Hw.
    change (is_in_flight (mktask (request_no t) (entity_id t) InFlight))
      with true in Hf.
    unfold b2n in *. lia.
  - rewrite finish_tasks.
    pose proof (filter_update_length is_waiting (tasks s0) i
                  (mktask (request_no t) (entity_id t)
                          (Done (task_outcome net t))) t Hn) as Hw.
    pose proof (filter_update_length is_in_flight (tasks s0) i
                  (mktask (request_no t) (entity_id t)
                          (Done (task_outcome net t))) t Hn) as Hf.
    assert (Ew : is_waiting t = false) by (unfold is_waiting; now rewrite Hst).
    assert (Ef : is_in_flight t = true) by (unfold is_in_flight; now rewrite Hst).
    rewrite Ew in Hw. rewrite Ef in Hf.
    change (is_waiting (mktask (request_no t) (entity_id t)
                               (Done (task_outcome net t)))) with false in Hw.
    change (is_in_flight (mktask (request_no t) (entity_id t)
                                 (Done (task_outcome net t)))) with false in Hf.
    unfold b2n in *. lia.
Qed.

Lemma find_task_Some p :
  forall l k i t, find_task p k l = Some (i, t) ->
  exists j, i = (k + j)%nat /\ nth_error l j = Some t /\ p t = true.
Proof.
  induction l as [|a l IH]; simpl; intros k i t H; [discriminate|].
  destruct (p a) eqn:E.
  - injection H as <- <-. exists 0%nat. split; [lia | auto].
  - destruct (IH _ _ _ H) as (j & -> & Hn & Hp).
    exists (S j). split; [lia | auto].
Qed.

Lemma find_task_None p :
  forall l k, find_task p k l = None -> filter p l = [].
Proof.
  induction l as [|a l IH]; simpl; intros k H; [reflexivity|].
  destruct (p a); [discriminate | eauto].
Qed.

(** The scheduler only takes steps of the relation. *)
Lemma next_turn_step net s s' : next_turn net s = Some s' -> step net s s'.
Proof.
  unfold next_turn. intros H.
  destruct (0 <? sem_value s) eqn:Epos.
  - destruct (find_task is_waiting 0 (tasks s)) as [[i t]|] eqn:Ew.
    + injection H as <-.
      destruct (find_task_Some _ _ _ _ _ Ew) as (j & -> & Hn & Hp).
      apply step_acquire; auto.
      * unfold is_waiting in Hp. destruct (st t); congruence.
      * now apply Z.ltb_lt.
    + destruct (find_task is_in_flight 0 (tasks s)) as [[i t]|] eqn:Ef;
        [|discriminate].
      injection H as <-.
      destruct (find_task_Some _ _ _ _ _ Ef) as (j & -> & Hn & Hp).
      apply step_release; auto.
      unfold is_in_flight in Hp. destruct (st t); congruence.
  - destruct (find_task is_in_flight 0 (tasks s)) as [[i t]|] eqn:Ef;
      [|discriminate].
    injection H as <-.
    destruct (find_task_Some _ _ _ _ _ Ef) as (j & -> & Hn & Hp).
    apply step_release; auto.
    unfold is_in_flight in Hp. destruct (st t); congruence.
Qed.

Lemma nothing_left_gathers :
  forall l, filter is_waiting l = [] -> filter is_in_flight l = [] ->
  exists rs, gather_results l = Some rs.
Proof.
  induction l as [|t l IH]; simpl; intros Hw Hf; [eauto|].
  unfold is_waiting, is_in_flight in *.
  destruct (st t) eqn:E; try discriminate.
  destruct (IH Hw Hf) as [rs ->]. eauto.
Qed.

(** With a positive capacity the loop is never stuck before every
    coroutine is done. *)
Lemma progress net capacity s :
  0 < capacity -> gate_inv capacity s ->
  gather_results (tasks s) = None ->
  exists s', next_turn net s = Some s'.
Proof.
  intros Hc [Hge Hsum] Hg. unfold next_turn.
  destruct (find_task is_in_flight 0 (tasks s)) as [[i t]|] eqn:Ef.
  - destruct (if 0 <? sem_value s then find_task is_waiting 0 (tasks s) else None)
      as [[j u]|]; eauto.
  - apply find_task_None in Ef.
    assert (Hs : sem_value s = capacity).
    { unfold in_flight in Hsum. rewrite Ef in Hsum. simpl in Hsum. lia. }
    assert (Hp : (0 <? sem_value s) = true) by (apply Z.ltb_lt; lia).
    rewrite Hp.
    destruct (find_task is_waiting 0 (tasks s)) as [[j u]|] eqn:Ew; [eauto|].
    apply find_task_None in Ew.
    destruct (nothing_left_gathers _ Ew Ef) as [rs Hrs]. congruence.
Qed.

Lemma reachable_step_left net s s1 s' :
  step net s s1 -> reachable net s1 s' -> reachable net s s'.
Proof.
  intros Hs Hr. induction Hr as [|u u' _ IH Hu].
  - eapply reach_step; [apply reach_start | assumption].
  - eapply reach_step; eauto.
Qed.

Lemma work_zero_gathers s :
  work s = 0%nat -> exists rs, gather_results (tasks s) = Some rs.
Proof.
  unfold work. intros H. apply nothing_left_gathers.
  - destruct (filter is_waiting (tasks s)); [reflexivity | simpl in H; lia].
  - destruct (filter is_in_flight (tasks s)); [reflexivity | simpl in H; lia].
Qed.

(** Enough fuel: the event loop finishes, in a reachable state. *)
Lemma event_loop_finishes net capacity :
  0 < capacity ->
  forall fuel s,
    gate_inv capacity s -> (work s <= fuel)%nat ->
    exists rs s',
      event_loop net fuel s = Finished rs s'
      /\ reachable net s s'
      /\ gather_results (tasks s') = Some rs.
Proof.
  intros Hc. induction fuel as [|fuel IH]; intros s Hinv Hw.
  - assert (H0 : work s = 0%nat) by lia.
    destruct (work_zero_gathers _ H0) as [rs Hrs].
    exists rs, s. simpl. rewrite Hrs. repeat split; auto. constructor.
  - simpl. destruct (gather_results (tasks s)) as [rs|] eqn:Hg.
    + exists rs, s. repeat split; auto. constructor.
    + destruct (progress net _ _ Hc Hinv Hg) as [s1 H1]. rewrite H1.
      pose proof (next_turn_step _ _ _ H1) as Hstep.
      pose proof (step_work _ _ _ Hstep) as Hdec.
      destruct (IH s1) as (rs & s' & He & Hr & Hrs).
      * eapply step_gate_inv; eauto.
      * lia.
      * exists rs, s'. repeat split; auto.
        eapply reachable_step_left; eauto.
Qed.

Lemma make_tasks_all_waiting ids :
  forall k, filter is_waiting (make_tasks k ids) = make_tasks k ids.
Proof.
  induction ids as [|p ids IH]; intros k; simpl; [reflexivity|].
  now rewrite IH.
Qed.

Lemma make_tasks_length ids :
  forall k, List.length (make_tasks k ids) = List.length ids.
Proof. induction ids as [|p ids IH]; intros k; simpl; auto. Qed.

Lemma initial_work sem ids : work (initial sem ids) = (2 * List.length ids)%nat.
Proof.
  unfold work, initial; simpl.
  rewrite make_tasks_all_waiting, make_tasks_none_in_flight, make_tasks_length.
  simpl. lia.
Qed.

Lemma filter_split_length {A} (p : A -> bool) (l : list A) :
  (List.length (filter p l) + List.length (filter (fun x => negb (p x)) l)
   = List.length l)%nat.
Proof.
  induction l as [|a l IH]; simpl; [reflexivity|].
  destruct (p a); simpl; lia.
Qed.

(** The batch of a run with a positive capacity and enough fuel. *)
Lemma run_completes capacity ids net fuel :
  0 < capacity -> (2 * List.length ids <= fuel)%nat ->
  exists b,
    run_extraction_pipeline capacity ids net fuel = Completed b
    /\ results b = expected_results net ids
    /\ valid_results b = filter is_dict_result (results b).
Proof.
  intros Hc Hf. unfold run_extraction_pipeline, Semaphore.
  assert (E : (capacity <? 0) = false) by (apply Z.ltb_ge; lia). rewrite E.
  destruct (event_loop_finishes net capacity Hc fuel (initial capacity ids))
    as (rs & s' & He & Hr & Hg).
  - apply initial_gate_inv. lia.
  - rewrite initial_work. assumption.
  - rewrite He. eexists. split; [reflexivity|]. simpl. split; [|reflexivity].
    eapply reachable_results; eauto.
Qed.

Lemma make_tasks_nth ids :
  forall k i,
    nth_error (make_tasks k ids) i
    = option_map (fun p_id => mktask (k + i) p_id Waiting) (nth_error ids i).
Proof.
  induction ids as [|p ids IH]; intros k [|i]; simpl; auto.
  - now rewrite Nat.add_0_r.
  - rewrite IH. now rewrite Nat.add_succ_r.
Qed.

Lemma expected_results_nth net ids i :
  nth_error (expected_results net ids) i
  = option_map (fun p_id => snd (fetch_entity_data net i p_id)) (nth_error ids i).
Proof.
  unfold expected_results. rewrite nth_error_map, make_tasks_nth.
  destruct (nth_error ids i); reflexivity.
Qed.



Lemma find_task_not_in_flight l :
  forall k, filter is_in_flight l = [] -> find_task is_in_flight k l = None.
Proof.
  induction l as [|t l IH]; intros k H; simpl in *; [reflexivity|].
  destruct (is_in_flight t); [discriminate | now apply IH].
Qed.


(** Under a positive capacity no interleaving gets stuck before every
    coroutine is done. *)
Lemma reachable_progress capacity ids net s :
  0 < capacity ->
  reachable net (initial capacity ids) s ->
  gather_results (tasks s) = None ->
  exists s', step net s s'.
Proof.
  intros Hc Hr Hg.
  assert (Hinv : gate_inv capacity s).
  { eapply reachable_gate_inv; [|exact Hr]. apply initial_gate_inv. lia. }
  destruct (progress net capacity s Hc Hinv Hg) as [s' Hs'].
  exists s'. now apply next_turn_step.
Qed.

(** With no slot at all nothing ever moves. *)
Lemma zero_capacity_stuck ids net s :
  reachable net (initial 0 ids) s -> s = initial 0 ids.
Proof.
  intros Hr. induction Hr as [|s s' _ IH Hstep]; [reflexivity|].
  subst s. exfalso.
  inversion Hstep as [s1 i t Hn Hst Hpos | s1 i t Hn Hst]; subst.
  - simpl in Hpos. lia.
  - simpl in Hn. rewrite make_tasks_nth in Hn.
    destruct (nth_error ids i); [|discriminate].
    injection Hn as <-. discriminate.
Qed.

(** The script as it stands: fifty identifiers through ten slots. *)
Example default_run_completes :
  exists b,
    run_extraction_pipeline MAX_CONCURRENT_REQUESTS POKEMON_IDS Scenarios.net_ok 100
    = Completed b
    /\ attempted b = 50%nat /\ succeeded b = 50%nat /\ failed b = 0%nat.
Proof. eexists. split; [vm_compute; reflexivity|]. repeat split. Qed.

(** *** The admission gate *)

(** C1. At every point of a run of the batch orchestrator, whatever the
    identifiers, the network and the interleaving, the number of
    coroutines inside the semaphore never exceeds the capacity the
    semaphore was created with; the slots taken and the slots left always
    add up to the capacity; and every step moves the counter by exactly
    one slot, down on an acquire and up on a release. *)
Theorem gate_never_exceeds_capacity
  (capacity : Z) (ids : list Z) (net : network) (semaphore : Z) (s : loop_state) :
  Semaphore capacity = Return semaphore ->
  reachable net (initial semaphore ids) s ->
  in_flight s <= capacity
  /\ sem_value s + in_flight s = capacity
  /\ (forall s', step net s s' ->
        (sem_value s' = sem_value s - 1 /\ in_flight s' = in_flight s + 1)
        \/ (sem_value s' = sem_value s + 1 /\ in_flight s' = in_flight s - 1)).
Proof.
  intros Hsem Hr. apply Semaphore_Return in Hsem as [-> Hge].
  destruct (reachable_gate_inv net capacity _ _ (initial_gate_inv _ ids Hge) Hr)
    as [H0 Hsum].
  split; [lia|]. split; [assumption|]. intros s'. apply step_counter.
Qed.

Lemma gate_never_exceeds_capacity_witness :
  in_flight Scenarios.two_in_flight <= 2
  /\ sem_value Scenarios.two_in_flight + in_flight Scenarios.two_in_flight = 2
  /\ (forall s', step Scenarios.net_ok Scenarios.two_in_flight s' ->
        (sem_value s' = sem_value Scenarios.two_in_flight - 1
         /\ in_flight s' = in_flight Scenarios.two_in_flight + 1)
        \/ (sem_value s' = sem_value Scenarios.two_in_flight + 1
            /\ in_flight s' = in_flight Scenarios.two_in_flight - 1)).
Proof.
  apply (gate_never_exceeds_capacity 2 [1; 2; 3] Scenarios.net_ok 2
           Scenarios.two_in_flight).
  - reflexivity.
  - unfold Scenarios.two_in_flight.
    apply reach_step
      with (s := acquire 0 (mktask 0 1 Waiting) (initial 2 [1; 2; 3])).
    + apply reach_step with (s := initial 2 [1; 2; 3]); [apply reach_start|].
      apply (step_acquire _ _ 0%nat (mktask 0 1 Waiting));
        [reflexivity | reflexivity | simpl; lia].
    + apply (step_acquire _ _ 1%nat (mktask 1 2 Waiting));
        [reflexivity | reflexivity | simpl; lia].
Defined.

(** *** Full accounting *)

(** C2. With a positive capacity, for every identifier sequence (empty,
    with duplicates, ...) and every network, the batch returns; its
    result list has one entry per identifier, the entry at a position
    being the outcome of the request made for the identifier at that
    position, so that no request changes the entry of another;
    successes and failures add up to the number of identifiers; every
    interleaving that finishes delivers the same list, and none gets
    stuck before it has finished. *)
Theorem batch_accounts_for_every_identifier
  (capacity : Z) (ids : list Z) (net : network) (fuel : nat) :
  0 < capacity ->
  (2 * List.length ids <= fuel)%nat ->
  exists b,
    run_extraction_pipeline capacity ids net fuel = Completed b
    /\ attempted b = List.length ids
    /\ (forall i,
          nth_error (results b) i
          = option_map (fun p_id => snd (fetch_entity_data net i p_id)) (nth_error ids i))
    /\ (succeeded b + failed b = List.length ids)%nat
    /\ (forall s rs,
          reachable net (initial capacity ids) s ->
          gather_results (tasks s) = Some rs ->
          rs = results b)
    /\ (forall s,
          reachable net (initial capacity ids) s ->
          gather_results (tasks s) = None ->
          exists s', step net s s').
Proof.
  intros Hc Hf.
  destruct (run_completes capacity ids net fuel Hc Hf) as (b & Hrun & Hres & Hval).
  exists b. split; [assumption|].
  assert (Hlen : List.length (results b) = List.length ids)
    by (rewrite Hres; apply expected_results_length).
  split; [exact Hlen|]. split.
  - intros i. rewrite Hres. apply expected_results_nth.
  - split.
    + unfold succeeded, failed. rewrite Hval, filter_split_length. exact Hlen.
    + split.
      * intros s rs Hr Hg. rewrite Hres. eapply reachable_results; eauto.
      * intros s Hr Hg. eapply reachable_progress; eauto.
Qed.

Lemma batch_accounts_for_every_identifier_witness :
  exists b,
    run_extraction_pipeline MAX_CONCURRENT_REQUESTS [7; 7; 3]
      Scenarios.net_404_for_2 6 = Completed b
    /\ attempted b = 3%nat
    /\ (forall i,
          nth_error (results b) i
          = option_map (fun p_id => snd (fetch_entity_data Scenarios.net_404_for_2 i p_id))
                       (nth_error [7; 7; 3] i))
    /\ (succeeded b + failed b = 3)%nat
    /\ (forall s rs,
          reachable Scenarios.net_404_for_2
                    (initial MAX_CONCURRENT_REQUESTS [7; 7; 3]) s ->
          gather_results (tasks s) = Some rs ->
          rs = results b)
    /\ (forall s,
          reachable Scenarios.net_404_for_2
                    (initial MAX_CONCURRENT_REQUESTS [7; 7; 3]) s ->
          gather_results (tasks s) = None ->
          exists s', step Scenarios.net_404_for_2 s s').
Proof.
  apply (batch_accounts_for_every_identifier MAX_CONCURRENT_REQUESTS [7; 7; 3]
           Scenarios.net_404_for_2 6).
  - unfold MAX_CONCURRENT_REQUESTS. lia.
  - simpl. lia.
Defined.

(** *** What a dispatch returns *)



(** *** Status interpretation *)

(** C4 as stated does not hold: in the batch for identifiers 1, 2, 3
    where identifier 2 answers 404, the entry for 2 is [None], the very
    entry a 500 produces, so that no reading of the returned value gives
    back the tagged outcome of the specification. *)
Lemma outcome_does_not_carry_the_status :
  (exists b b',
      run_extraction_pipeline MAX_CONCURRENT_REQUESTS [1; 2; 3]
        Scenarios.net_404_for_2 6 = Completed b
      /\ run_extraction_pipeline MAX_CONCURRENT_REQUESTS [1; 2; 3]
           Scenarios.net_500_for_2 6 = Completed b'
      /\ Spec.dispatch 2 (Scenarios.net_404_for_2 1%nat (Scenarios.url_of 2) TIMEOUT_SECONDS)
         = Spec.SoftFailure 2 404
      /\ nth_error (results b) 1%nat = Some (Return VNone)
      /\ results b' = results b)
  /\ ~ (exists decode : outcome value -> Spec.FetchOutcome,
          forall answer,
            decode (snd (fetch_entity_data (fun _ _ _ => answer) 0%nat 2))
            = Spec.dispatch 2 answer).
Proof.
  split.
  - eexists. eexists. split; [vm_compute; reflexivity|].
    split; [vm_compute; reflexivity|].
    split; [vm_compute; reflexivity|].
    split; vm_compute; reflexivity.
  - intros [decode H].
    pose proof (H (Responds 404 (JsonValue VNone))) as H404.
    pose proof (H (Responds 500 (JsonValue VNone))) as H500.
    vm_compute in H404, H500. congruence.
Qed.

(** C4, amended.  A 200 response whose body parses to a mapping yields
    that payload; any other status yields [None], the status code going
    to a warning record of the log only; an exception on the way in or
    while the body is read yields [None] and one error record.  For
    identifiers 1, 2, 3 where identifier 2 answers 404 the batch has
    three entries, two successes and one failure, and the entry for
    identifier 2 is [None]. *)
Theorem dispatch_by_status :
  (forall net k p_id kv,
      net k (String.append BASE_URL (str_of_int p_id)) TIMEOUT_SECONDS
      = Responds 200 (JsonValue (VDict kv)) ->
      snd (fetch_entity_data net k p_id) = Return (VDict kv))
  /\ (forall net k p_id status body,
        net k (String.append BASE_URL (str_of_int p_id)) TIMEOUT_SECONDS
        = Responds status body ->
        status <> 200 ->
        fetch_entity_data net k p_id = ([ResourceStatus p_id status], Return VNone)
        /\ level_of (ResourceStatus p_id status) = WARNING)
  /\ (forall net k p_id e,
        net k (String.append BASE_URL (str_of_int p_id)) TIMEOUT_SECONDS
        = GetRaises e
        \/ net k (String.append BASE_URL (str_of_int p_id)) TIMEOUT_SECONDS
           = Responds 200 (JsonRaises e) ->
        exists ev,
          fetch_entity_data net k p_id = ([ev], Return VNone) /\ level_of ev = ERROR)
  /\ (exists b,
        run_extraction_pipeline MAX_CONCURRENT_REQUESTS [1; 2; 3]
          Scenarios.net_404_for_2 6 = Completed b
        /\ attempted b = 3%nat /\ succeeded b = 2%nat /\ failed b = 1%nat
        /\ nth_error (results b) 1%nat = Some (Return VNone)).
Proof.
  split; [|split; [|split]].
  - intros net k p_id kv H. unfold fetch_entity_data. rewrite H. reflexivity.
  - intros net k p_id status body H Hs. split; [|reflexivity].
    unfold fetch_entity_data. rewrite H. simpl.
    destruct (status =? 200) eqn:E; [apply Z.eqb_eq in E; contradiction|].
    reflexivity.
  - intros net k p_id e H. unfold fetch_entity_data.
    destruct H as [-> | ->]; simpl;
      unfold handle, is_TimeoutError, is_ClientError, is_Exception;
      destruct (exn_cls e); eexists; split; reflexivity.
  - eexists. split; [vm_compute; reflexivity|].
    repeat split; vm_compute; reflexivity.
Qed.

(** *** Timeouts *)




(** *** Run parameters *)

(** C8 as stated does not hold: a capacity of zero is accepted by the
    semaphore and the run raises nothing (no coroutine can ever pass the
    gate), and an empty identifier source gives an empty batch, not an
    error. *)
Lemma no_configuration_error_is_raised :
  Semaphore 0 = Return 0
  /\ run_extraction_pipeline 0 [1] Scenarios.net_ok 10
     = NeverReturns (initial 0 [1])
  /\ run_extraction_pipeline MAX_CONCURRENT_REQUESTS [] Scenarios.net_ok 0
     = Completed (mkbatch [] [] [SummaryHeader; SummaryElapsed; SummarySuccessful 0 0]).
Proof. repeat split. Qed.

(** C8, amended.  The only run parameter that makes the batch operation
    raise is a negative capacity: the semaphore constructor raises
    [ValueError] before any coroutine exists, and with a capacity of zero
    or more nothing is ever raised to the caller.  An empty identifier
    source is no error: the batch completes with no entry.  A capacity of
    zero is no error either: with at least one identifier no coroutine
    passes the gate, under any interleaving, and the batch never returns.
    With a positive capacity the batch returns. *)
Theorem only_a_negative_capacity_raises
  (capacity : Z) (ids : list Z) (net : network) (fuel : nat) :
  (capacity < 0 ->
   run_extraction_pipeline capacity ids net fuel
   = Raised (mkexn ValueError "Semaphore initial value must be >= 0"))
  /\ (0 <= capacity ->
      forall e, run_extraction_pipeline capacity ids net fuel <> Raised e)
  /\ (0 <= capacity -> ids = [] ->
      run_extraction_pipeline capacity ids net fuel
      = Completed (mkbatch [] [] [SummaryHeader; SummaryElapsed; SummarySuccessful 0 0]))
  /\ (capacity = 0 -> ids <> [] -> (0 < fuel)%nat ->
      run_extraction_pipeline capacity ids net fuel
      = NeverReturns (initial 0 ids))
  /\ (capacity = 0 -> ids <> [] ->
      forall s, reachable net (initial 0 ids) s ->
                s = initial 0 ids /\ gather_results (tasks s) = None)
  /\ (0 < capacity -> (2 * List.length ids <= fuel)%nat ->
      exists b, run_extraction_pipeline capacity ids net fuel = Completed b).
Proof.
  unfold run_extraction_pipeline, Semaphore.
  split; [|split; [|split; [|split; [|split]]]].
  - intros H. apply Z.ltb_lt in H. now rewrite H.
  - intros H e. apply Z.ltb_ge in H. rewrite H.
    destruct (event_loop net fuel (initial capacity ids)); discriminate.
  - intros H ->. apply Z.ltb_ge in H. rewrite H.
    destruct fuel; reflexivity.
  - intros -> Hids Hfuel. simpl.
    destruct ids as [|p ids]; [contradiction|].
    destruct fuel as [|fuel]; [lia|].
    simpl. unfold next_turn. simpl.
    rewrite (find_task_not_in_flight (make_tasks 1 ids)); [reflexivity|].
    apply make_tasks_none_in_flight.
  - intros _ Hids s Hr. apply zero_capacity_stuck in Hr. subst s.
    split; [reflexivity|]. destruct ids as [|p ids]; [contradiction|reflexivity].
  - intros Hc Hf.
    destruct (run_completes capacity ids net fuel Hc Hf) as (b & Hrun & _).
    exists b. exact Hrun.
Qed.

End AsyncioFacts.

(* ================================================================== *)
(** ** Facts about [strip] and [upper] *)
(* ================================================================== *)

Module StrFacts.
Import Str.







Lemma lstrip_clean_head s : clean_head (lstrip s).
Proof.
  induction s as [|c s IH]; simpl; [exact I|].
  destruct (isspace c) eqn:E; [exact IH | exact E].
Qed.

Lemma lstrip_fixed s : clean_head s -> lstrip s = s.
Proof. destruct s as [|c s]; simpl; [reflexivity|]. now intros ->. Qed.

Lemma rstrip_clean_head s : clean_head s -> clean_head (rstrip s).
Proof.
  destruct s as [|c s]; simpl; [trivial|]. intros E.
  destruct (rstrip s); [rewrite E|]; exact E.
Qed.



End StrFacts.

(* ================================================================== *)
(** ** Facts about the two data contracts and the validation filters *)
(* ================================================================== *)

Module ValidatorFacts.
Import Py Pydantic Validator Ingestor.

Lemma ap_Ok_inv {A B} (vf : validation (A -> B)) (va : validation A) (b : B) :
  ap vf va = Ok b -> exists f a, vf = Ok f /\ va = Ok a /\ b = f a.
Proof.
  destruct vf as [f|e es], va as [a|e' es']; simpl; try discriminate.
  intros [= <-]. eauto.
Qed.

Lemma and_then_Ok_inv {A B} (va : validation A) (k : A -> validation B) (b : B) :
  and_then va k = Ok b -> exists a, va = Ok a /\ k a = Ok b.
Proof. destruct va as [a|e es]; simpl; [eauto | discriminate]. Qed.

Lemma required_Ok_inv {A} name (check : string -> value -> validation A) kw a :
  required name check kw = Ok a ->
  exists v, lookup name kw = Some v /\ check name v = Ok a.
Proof.
  unfold required. destruct (lookup name kw) as [v|]; [eauto | discriminate].
Qed.


Lemma required_alias_Ok_inv {A} alias name
  (check : string -> value -> validation A) kw a :
  required_alias alias name check kw = Ok a ->
  exists loc v, check loc v = Ok a.
Proof.
  unfold required_alias. destruct (lookup alias kw) as [v|]; [eauto|].
  destruct (lookup name kw) as [v|]; [eauto | discriminate].
Qed.

(** *** Dates *)



(** *** The payment method *)


Lemma default_metodo_pago_fixed :
  estandarizar_metodo_pago "NO_ESPECIFICADO" = "NO_ESPECIFICADO"%string.
Proof. reflexivity. Qed.

(** *** Re-validating a dumped model *)


Lemma validate_int_again c loc loc' v z :
  validate_int c loc v = Ok z -> validate_int c loc' (VInt z) = Ok z.
Proof. reflexivity. Qed.










(** *** The batch filter *)

Lemma procesar_bucle_spec c today json_text :
  forall datos acc,
    serializable datos ->
    procesar_bucle c today json_text datos acc
    = Return
        (mklote
           (vistos acc ++ datos)
           (registros_validos acc
            ++ Spec.accepted
                 (Spec.validateStream (TransaccionVentas_model c today) datos))
           (registros_cuarentena acc
            ++ map (entrada json_text)
                 (Spec.rejected
                    (Spec.validateStream (TransaccionVentas_model c today) datos)))).
Proof.
  induction datos as [|registro resto IH]; intros acc Hser.
  - simpl. rewrite !app_nil_r. now destruct acc.
  - inversion Hser as [|? ? Hr Hresto]; subst.
    change (Spec.validateStream (TransaccionVentas_model c today)
              (registro :: resto))
      with (Spec.verdict (TransaccionVentas_model c today) registro
            :: Spec.validateStream (TransaccionVentas_model c today) resto).
    change (Spec.verdict (TransaccionVentas_model c today) registro)
      with (match new_TransaccionVentas c today registro with
            | Ok m => Spec.Accepted (dump_TransaccionVentas m)
            | Errors e es => Spec.Rejected registro (e :: es)
            end).
    cbn [procesar_bucle].
    destruct (new_TransaccionVentas c today registro) as [m|e es].
    + rewrite IH by assumption.
      cbn [Spec.accepted Spec.rejected flat_map map app vistos
           registros_validos registros_cuarentena].
      now rewrite <- !app_assoc.
    + unfold json_dumps. rewrite Hr.
      rewrite IH by assumption.
      cbn [Spec.accepted Spec.rejected flat_map map app vistos
           registros_validos registros_cuarentena].
      now rewrite <- !app_assoc.
Qed.


(** *** The streaming filter *)

Lemma list_of_suspended self :
  forall pendientes fuel,
    (List.length pendientes < fuel)%nat ->
    list_of self fuel (Suspended pendientes)
    = Some (lineas_descarte
              (Spec.rejected (Spec.validateStream (modelo_pydantic self) pendientes)),
            Spec.accepted (Spec.validateStream (modelo_pydantic self) pendientes)).
Proof.
  induction pendientes as [|registro resto IH]; intros [|fuel] Hf;
    try (simpl in Hf; lia).
  - reflexivity.
  - change (Spec.validateStream (modelo_pydantic self) (registro :: resto))
      with (Spec.verdict (modelo_pydantic self) registro
            :: Spec.validateStream (modelo_pydantic self) resto).
    unfold Spec.verdict at 1 2.
    assert (Hrest : (List.length resto < S fuel)%nat) by (simpl in Hf; lia).
    specialize (IH (S fuel) Hrest) as IHs.
    cbn [list_of next avanzar] in IHs |- *.
    destruct (call (modelo_pydantic self) registro) as [m|e es].
    + cbn [suspender]. rewrite IH by (simpl in Hf; lia). reflexivity.
    + destruct (avanzar (modelo_pydantic self) resto) as [impreso [[limpio sig]|]];
        cbn [suspender] in IHs |- *.
      * destruct (list_of self fuel (Suspended sig)) as [[impreso' limpios]|];
          [|discriminate].
        injection IHs as Hi Hl.
        cbn [Spec.accepted Spec.rejected flat_map lineas_descarte snd app].
        f_equal. f_equal; [f_equal; exact Hi | exact Hl].
      * injection IHs as Hi Hl.
        cbn [Spec.accepted Spec.rejected flat_map lineas_descarte snd app].
        f_equal. f_equal; [f_equal; exact Hi | exact Hl].
Qed.

Lemma list_of_validar_en_flujo self datos_crudos :
  list_of self (S (List.length datos_crudos)) (validar_en_flujo self datos_crudos)
  = Some (banner
            :: lineas_descarte
                 (Spec.rejected
                    (Spec.validateStream (modelo_pydantic self) datos_crudos)),
          Spec.accepted (Spec.validateStream (modelo_pydantic self) datos_crudos)).
Proof.
  pose proof (list_of_suspended self datos_crudos (S (List.length datos_crudos))
                (Nat.lt_succ_diag_r _)) as H.
  unfold validar_en_flujo. cbn [list_of next] in H |- *.
  destruct (suspender (avanzar (modelo_pydantic self) datos_crudos))
    as [[impreso [limpio|]] g'].
  - destruct (list_of self (List.length datos_crudos) g') as [[impreso' limpios]|];
      [|discriminate].
    injection H as <- <-. reflexivity.
  - injection H as <- <-. reflexivity.
Qed.


(** A record without a required field is rejected, and the reason names
    the field. *)
Example missing_field_is_named :
  Spec.verdict (UsuarioAPI_model Scenarios.lax_demo) Scenarios.usuario_2
  = Spec.Rejected Scenarios.usuario_2
      [mkerror "missing" "email" "Field required" (VDict Scenarios.usuario_2)].
Proof. reflexivity. Qed.

(** The batch of the script's entry point: records 1 and 4 are clean,
    record 2 has a bad address, record 3 a negative amount and a date in
    the future. *)
Example lote_json_sucio_verdicts :
  exists l,
    procesar_lote_extraccion Scenarios.lax_demo Scenarios.hoy Scenarios.json_keys
      Scenarios.lote_json_sucio = Return l
    /\ map (lookup "metodo_pago") (registros_validos l)
       = [Some (VStr "TARJETA_CREDITO"); Some (VStr "NO_ESPECIFICADO")]
    /\ map (lookup "transaccion_id") (registros_validos l)
       = [Some (VInt 1001); Some (VInt 1004)]
    /\ map (fun q => map err_loc (motivos_rechazo q)) (registros_cuarentena l)
       = [["email_cliente"%string];
          ["monto_usd"%string; "fecha_transaccion"%string]].
Proof. eexists. split; [vm_compute; reflexivity|]. repeat split. Qed.




(** The batch filter does not survive a rejected record that [json.dumps]
    cannot write, such as one holding a [date] object. *)
Lemma procesar_lote_extraccion_TypeError :
  procesar_lote_extraccion Scenarios.lax_demo Scenarios.hoy Scenarios.json_keys
    [ [("fecha_transaccion"%string, VDate (mkdate 2023 10 15))] ]
  = Raise (mkexn TypeError "Object is not JSON serializable").
Proof. reflexivity. Qed.

(** C10. For records that [json.dumps] can write, every rejected record
    has its dead-letter entry, which holds the text that [json.dumps]
    writes for the record (a string, not the mapping), the error list of
    the validator as it is, and the fixed stage marker; these are all the
    entries, in input order; and the records the loop went through are
    the input records, unchanged. *)
Theorem quarantine_entry_keeps_payload_text
  (c : coercions) (today : date) (json_text : value -> string)
  (datos_crudos : list dict) :
  serializable datos_crudos ->
  exists l,
    procesar_lote_extraccion c today json_text datos_crudos = Return l
    /\ vistos l = datos_crudos
    /\ registros_cuarentena l
       = map (fun p =>
                mkerror_estructurado (json_text (VDict (fst p))) (snd p)
                  "Pydantic Data Quality Gate")
             (Spec.rejected
                (Spec.validateStream (TransaccionVentas_model c today) datos_crudos))
    /\ (forall registro e es,
          In registro datos_crudos ->
          new_TransaccionVentas c today registro = Errors e es ->
          In (mkerror_estructurado (json_text (VDict registro)) (e :: es)
                "Pydantic Data Quality Gate")
             (registros_cuarentena l)).
Proof.
  intros Hser. unfold procesar_lote_extraccion.
  rewrite procesar_bucle_spec by assumption.
  eexists. split; [reflexivity|].
  cbn [vistos registros_validos registros_cuarentena app].
  split; [reflexivity|]. split; [reflexivity|].
  intros registro e es Hin Hrej.
  apply (in_map (entrada json_text) _ (registro, e :: es)).
  unfold Spec.rejected. apply in_flat_map.
  exists (Spec.Rejected registro (e :: es)). split; [|now left].
  unfold Spec.validateStream. apply in_map_iff.
  exists registro. split; [|assumption].
  unfold Spec.verdict. cbn [call TransaccionVentas_model]. now rewrite Hrej.
Qed.

Lemma quarantine_entry_keeps_payload_text_witness :
  exists l,
    procesar_lote_extraccion Scenarios.lax_demo Scenarios.hoy Scenarios.json_keys
      Scenarios.lote_json_sucio = Return l
    /\ vistos l = Scenarios.lote_json_sucio
    /\ registros_cuarentena l
       = map (fun p =>
                mkerror_estructurado (Scenarios.json_keys (VDict (fst p))) (snd p)
                  "Pydantic Data Quality Gate")
             (Spec.rejected
                (Spec.validateStream
                   (TransaccionVentas_model Scenarios.lax_demo Scenarios.hoy)
                   Scenarios.lote_json_sucio))
    /\ (forall registro e es,
          In registro Scenarios.lote_json_sucio ->
          new_TransaccionVentas Scenarios.lax_demo Scenarios.hoy registro
          = Errors e es ->
          In (mkerror_estructurado (Scenarios.json_keys (VDict registro)) (e :: es)
                "Pydantic Data Quality Gate")
             (registros_cuarentena l)).
Proof.
  apply (quarantine_entry_keeps_payload_text Scenarios.lax_demo Scenarios.hoy
           Scenarios.json_keys Scenarios.lote_json_sucio).
  repeat constructor.
Defined.

End ValidatorFacts.

(* ================================================================== *)
(** ** More on the event loop of day-04 *)
(* ================================================================== *)

Module AsyncioMore.
Import Py Asyncio Schedules AsyncioFacts.

Lemma move_step net i s s' : move net i s = Some s' -> step net s s'.
Proof.
  unfold move. destruct (nth_error (tasks s) i) as [t|] eqn:Hn; [|discriminate].
  destruct (st t) eqn:Hst; try discriminate.
  - destruct (0 <? sem_value s) eqn:Hp; [|discriminate].
    intros [= <-]. apply step_acquire; auto. now apply Z.ltb_lt.
  - intros [= <-]. now apply step_release.
Qed.

Lemma step_move net s s' : step net s s' -> exists i, move net i s = Some s'.
Proof.
  intros [s0 i t Hn Hst Hpos | s0 i t Hn Hst]; exists i; unfold move;
    rewrite Hn, Hst; [|reflexivity].
  apply Z.ltb_lt in Hpos. now rewrite Hpos.
Qed.

Lemma play_app net a : forall b s,
  play net (a ++ b) s
  = match play net a s with Some s' => play net b s' | None => None end.
Proof.
  induction a as [|i a IH]; intros b s; simpl; [reflexivity|].
  destruct (move net i s); [apply IH | reflexivity].
Qed.

Lemma play_reachable net schedule : forall s s',
  play net schedule s = Some s' -> reachable net s s'.
Proof.
  induction schedule as [|i rest IH]; simpl; intros s s' H.
  - injection H as <-. constructor.
  - destruct (move net i s) as [s1|] eqn:Hm; [|discriminate].
    eapply reachable_step_left; [eapply move_step; eauto | now apply IH].
Qed.

Lemma reachable_play net s s' :
  reachable net s s' -> exists schedule, play net schedule s = Some s'.
Proof.
  intros Hr. induction Hr as [|u u' _ [schedule Hs] Hstep].
  - exists []. reflexivity.
  - destruct (step_move _ _ _ Hstep) as [i Hi].
    exists (schedule ++ [i]). rewrite play_app, Hs. simpl. now rewrite Hi.
Qed.

Lemma play_work net schedule : forall s s',
  play net schedule s = Some s' ->
  (List.length schedule + work s' = work s)%nat.
Proof.
  induction schedule as [|i rest IH]; simpl; intros s s' H.
  - now injection H as <-.
  - destruct (move net i s) as [s1|] eqn:Hm; [|discriminate].
    pose proof (step_work _ _ _ (move_step _ _ _ _ Hm)). specialize (IH _ _ H). lia.
Qed.

Lemma gathers_nothing_left :
  forall l rs, gather_results l = Some rs ->
  filter is_waiting l = [] /\ filter is_in_flight l = [].
Proof.
  induction l as [|t l IH]; simpl; intros rs H; [auto|].
  destruct (st t) eqn:E; try discriminate.
  destruct (gather_results l) as [rs'|]; [|discriminate].
  destruct (IH rs' eq_refl) as [Hw Hf].
  unfold is_waiting, is_in_flight in *. rewrite E. auto.
Qed.

Lemma gathers_no_work s rs :
  gather_results (tasks s) = Some rs -> work s = 0%nat.
Proof.
  intros H. destruct (gathers_nothing_left _ _ H) as [Hw Hf].
  unfold work. now rewrite Hw, Hf.
Qed.

(** X1. Every interleaving of a batch over n identifiers makes at most 2n
    moves (each coroutine enters once and is answered once), whatever the
    capacity and the network; it has finished, every coroutine being
    done, exactly when it has made 2n moves. *)
Theorem every_interleaving_is_bounded
  (net : network) (semaphore : Z) (ids : list Z) (schedule : list nat)
  (s : loop_state) :
  play net schedule (initial semaphore ids) = Some s ->
  (List.length schedule <= 2 * List.length ids)%nat
  /\ (List.length schedule = 2 * List.length ids
      <-> exists rs, gather_results (tasks s) = Some rs)%nat.
Proof.
  intros H. pose proof (play_work _ _ _ _ H) as Hw. rewrite initial_work in Hw.
  split; [lia|]. split.
  - intros Hl. apply work_zero_gathers. lia.
  - intros [rs Hrs]. apply gathers_no_work in Hrs. lia.
Qed.

Lemma every_interleaving_is_bounded_witness :
  (List.length out_of_order <= 2 * 3)%nat
  /\ (List.length out_of_order = 2 * 3
      <-> exists rs, gather_results (tasks after_out_of_order) = Some rs)%nat.
Proof.
  apply (every_interleaving_is_bounded Scenarios.net_404_for_2 2 [1; 2; 3]
           out_of_order after_out_of_order).
  reflexivity.
Defined.

(** X2. No slot is lost: when a batch has finished, under any
    interleaving, the semaphore is back at the capacity it was created
    with and no coroutine holds a slot. *)
Theorem all_slots_returned
  (capacity : Z) (ids : list Z) (net : network) (semaphore : Z)
  (s : loop_state) (rs : list (outcome value)) :
  Semaphore capacity = Return semaphore ->
  reachable net (initial semaphore ids) s ->
  gather_results (tasks s) = Some rs ->
  sem_value s = capacity /\ in_flight s = 0.
Proof.
  intros Hsem Hr Hg. apply Semaphore_Return in Hsem as [-> Hge].
  destruct (reachable_gate_inv net capacity _ _ (initial_gate_inv _ ids Hge) Hr)
    as [_ Hsum].
  apply gathers_no_work in Hg. unfold work in Hg. unfold in_flight in *.
  destruct (filter is_in_flight (tasks s)); simpl in *; [lia | lia].
Qed.

Lemma all_slots_returned_witness :
  sem_value after_out_of_order = 2 /\ in_flight after_out_of_order = 0.
Proof.
  apply (all_slots_returned 2 [1; 2; 3] Scenarios.net_404_for_2 2
           after_out_of_order
           [Return (Scenarios.pokemon "bulbasaur"); Return VNone;
            Return (Scenarios.pokemon "bulbasaur")]).
  - reflexivity.
  - apply (play_reachable _ out_of_order). reflexivity.
  - reflexivity.
Defined.

(** *** The log of a run *)












(** *** Resource addresses *)

Lemma append_cancel p : forall x y, String.append p x = String.append p y -> x = y.
Proof.
  induction p as [|c p IH]; simpl; intros x y H; [assumption|].
  injection H as H. now apply IH.
Qed.

Lemma str_of_int_injective a b : str_of_int a = str_of_int b -> a = b.
Proof.
  unfold str_of_int. intros H.
  apply (f_equal NilEmpty.int_of_string) in H.
  rewrite !NilEmpty.isi in H. injection H as H.
  apply (f_equal Z.of_int) in H. now rewrite !DecimalZ.of_to in H.
Qed.

(** Two different identifiers are never fetched from the same
    address: the resource address built for a dispatch determines its
    identifier. *)
Theorem distinct_identifiers_distinct_urls (a b : Z) :
  a <> b ->
  String.append BASE_URL (str_of_int a) <> String.append BASE_URL (str_of_int b).
Proof.
  intros Hab H. apply Hab. now apply str_of_int_injective, (append_cancel BASE_URL).
Qed.

Lemma distinct_identifiers_distinct_urls_witness :
  String.append BASE_URL (str_of_int 1) <> String.append BASE_URL (str_of_int 10).
Proof.
  apply (distinct_identifiers_distinct_urls 1 10). lia.
Defined.

End AsyncioMore.

(* ================================================================== *)
(** ** More on the data contracts and the batch filter *)
(* ================================================================== *)

Module ValidatorMore.
Import Py Pydantic Validator Ingestor Contracts ValidatorFacts.

(** *** The payment method in normal form *)









(** *** What the errors of a model are made of *)

Lemma errores_ap {A B} (vf : validation (A -> B)) (va : validation A) :
  errores (ap vf va) = errores vf ++ errores va.
Proof.
  destruct vf as [f|e es], va as [a|e' es']; simpl; auto.
  now rewrite app_nil_r.
Qed.


Lemma errores_Errors {A} (v : validation A) x :
  In x (errores v) -> exists e es, v = Errors e es /\ In x (e :: es).
Proof. destruct v as [a|e es]; simpl; [contradiction | eauto]. Qed.

Lemma errores_TransaccionVentas c today kw :
  errores (new_TransaccionVentas c today kw)
  = errores (required "transaccion_id" (validate_int c) kw)
    ++ errores (required "email_cliente" (validate_email c) kw)
    ++ errores (required "monto_usd"
                  (fun loc v => and_then (validate_float c loc v)
                                         (check_ge 0.01 loc)) kw)
    ++ errores (required "fecha_transaccion"
                  (fun loc v => and_then (validate_date c loc v)
                                         (validar_fecha_no_futura today loc)) kw)
    ++ errores (with_default "metodo_pago" "NO_ESPECIFICADO"%string
                  (fun loc v => and_then (validate_str loc v)
                                         (fun s => Ok (estandarizar_metodo_pago s))) kw)
    ++ errores (with_default "notas_adicionales" None validate_optional_str kw).
Proof.
  unfold new_TransaccionVentas. rewrite !errores_ap. simpl.
  now rewrite <- !app_assoc.
Qed.

Lemma errores_required_missing {A} name (check : string -> value -> validation A) kw :
  lookup name kw = None ->
  errores (required name check kw)
  = [mkerror "missing" name "Field required" (VDict kw)].
Proof. unfold required. now intros ->. Qed.

(** X5. A record that lacks one of the four required fields of
    [TransaccionVentas] is rejected, and the reasons hold a [missing]
    entry that names the field, whatever else is wrong with the record. *)
Theorem missing_required_field_is_reported
  (c : coercions) (today : date) (kw : dict) (name : string) :
  In name obligatorios ->
  lookup name kw = None ->
  exists e es,
    new_TransaccionVentas c today kw = Errors e es
    /\ In (mkerror "missing" name "Field required" (VDict kw)) (e :: es).
Proof.
  intros Hin Hl. apply errores_Errors. rewrite errores_TransaccionVentas.
  simpl in Hin.
  destruct Hin as [<- | [<- | [<- | [<- | []]]]];
    rewrite (errores_required_missing _ _ _ Hl);
    repeat (apply in_or_app; first [left; now left | right]).
Qed.

Lemma missing_required_field_is_reported_witness :
  exists e es,
    new_TransaccionVentas Scenarios.lax_demo Scenarios.hoy registro_sin_email
    = Errors e es
    /\ In (mkerror "missing" "email_cliente" "Field required"
             (VDict registro_sin_email)) (e :: es).
Proof.
  apply (missing_required_field_is_reported Scenarios.lax_demo Scenarios.hoy
           registro_sin_email "email_cliente").
  - simpl. auto.
  - reflexivity.
Defined.











(** *** What an accepted record guarantees *)

Lemma with_default_Ok_cases {A} name (d : A)
  (check : string -> value -> validation A) kw a :
  with_default name d check kw = Ok a ->
  (lookup name kw = None /\ a = d)
  \/ (exists v, lookup name kw = Some v /\ check name v = Ok a).
Proof.
  unfold with_default. destruct (lookup name kw) as [v|]; [eauto|].
  intros [= <-]. now left.
Qed.

(** X7. A record accepted as a [TransaccionVentas] has an amount of at
    least 0.01, a date that is not after today, the address its
    [email_cliente] string normalises to, all four required fields, and
    a payment method that is the default when the key is absent and the
    stripped, upper-cased string otherwise. *)
Theorem accepted_record_meets_the_contract
  (c : coercions) (today : date) (kw : dict) (m : TransaccionVentas) :
  new_TransaccionVentas c today kw = Ok m ->
  PrimFloat.leb 0.01 (monto_usd m) = true
  /\ date_gt (fecha_transaccion m) today = false
  /\ (exists s, lookup "email_cliente" kw = Some (VStr s)
                /\ email_normalise c s = Some (email_cliente m))
  /\ (forall name, In name obligatorios -> lookup name kw <> None)
  /\ ((lookup "metodo_pago" kw = None
       /\ metodo_pago m = "NO_ESPECIFICADO"%string)
      \/ (exists s, lookup "metodo_pago" kw = Some (VStr s)
                    /\ metodo_pago m = estandarizar_metodo_pago s)).
Proof.
  intros H. unfold new_TransaccionVentas in H.
  apply ap_Ok_inv in H as (g6 & o & H & H6 & ->).
  apply ap_Ok_inv in H as (g5 & s5 & H & H5 & ->).
  apply ap_Ok_inv in H as (g4 & d & H & H4 & ->).
  apply ap_Ok_inv in H as (g3 & f & H & H3 & ->).
  apply ap_Ok_inv in H as (g2 & s2 & H & H2 & ->).
  apply ap_Ok_inv in H as (g1 & z & H & H1 & ->).
  injection H as <-. simpl.
  apply required_Ok_inv in H1 as (v1 & L1 & H1).
  apply required_Ok_inv in H2 as (v2 & L2 & H2).
  apply required_Ok_inv in H3 as (v3 & L3 & H3).
  apply required_Ok_inv in H4 as (v4 & L4 & H4).
  apply with_default_Ok_cases in H5.
  split; [|split; [|split; [|split]]].
  - destruct (and_then_Ok_inv _ _ _ H3) as (f0 & _ & Hge).
    unfold check_ge in Hge.
    destruct (PrimFloat.leb 0.01 f0) eqn:E; [|discriminate].
    now injection Hge as <-.
  - destruct (and_then_Ok_inv _ _ _ H4) as (d0 & _ & Hd).
    unfold validar_fecha_no_futura in Hd.
    destruct (date_gt d0 today) eqn:E; [discriminate|].
    now injection Hd as <-.
  - unfold validate_email in H2. destruct v2; try discriminate.
    destruct (email_normalise c s) as [n|] eqn:E; [|discriminate].
    injection H2 as <-. eauto.
  - intros name Hin. simpl in Hin.
    destruct Hin as [<- | [<- | [<- | [<- | []]]]]; congruence.
  - destruct H5 as [[L5 ->] | (v5 & L5 & H5)]; [now left|]. right.
    destruct v5; try discriminate. simpl in H5. injection H5 as <-. eauto.
Qed.

Lemma accepted_record_meets_the_contract_witness :
  PrimFloat.leb 0.01 150.5 = true
  /\ date_gt (mkdate 2023 10 15) Scenarios.hoy = false
  /\ (exists s, lookup "email_cliente" Scenarios.registro_1 = Some (VStr s)
                /\ email_normalise Scenarios.lax_demo s = Some "usuario1@empresa.com"%string)
  /\ (forall name, In name obligatorios -> lookup name Scenarios.registro_1 <> None)
  /\ ((lookup "metodo_pago" Scenarios.registro_1 = None
       /\ "TARJETA_CREDITO"%string = "NO_ESPECIFICADO"%string)
      \/ (exists s, lookup "metodo_pago" Scenarios.registro_1 = Some (VStr s)
                    /\ "TARJETA_CREDITO"%string = estandarizar_metodo_pago s)).
Proof.
  apply (accepted_record_meets_the_contract Scenarios.lax_demo Scenarios.hoy
           Scenarios.registro_1
           (mkTransaccionVentas 1001 "usuario1@empresa.com" 150.5
              (mkdate 2023 10 15) "TARJETA_CREDITO" None)).
  vm_compute. reflexivity.
Defined.

(** *** Aliases of [UsuarioAPI] *)

Lemma required_alias_Ok_cases {A} alias name
  (check : string -> value -> validation A) kw a :
  required_alias alias name check kw = Ok a ->
  (exists v, lookup alias kw = Some v /\ check alias v = Ok a)
  \/ (exists v, lookup alias kw = None /\ lookup name kw = Some v
                /\ check name v = Ok a).
Proof.
  unfold required_alias. destruct (lookup alias kw) as [v|]; [eauto|].
  destruct (lookup name kw) as [v|]; [|discriminate]. right. eauto.
Qed.

(** X8. [UsuarioAPI] reads the user number under the JSON name [id] and,
    when that key is absent, under the field name [id_usuario]; when
    both are present the JSON name wins; a record with neither is
    rejected with a [missing] reason that names [id]. *)
Theorem UsuarioAPI_reads_alias_then_name (c : coercions) (kw : dict) :
  (forall u, new_UsuarioAPI c kw = Ok u ->
     (exists v, lookup "id" kw = Some v /\ validate_int c "id" v = Ok (id_usuario u))
     \/ (exists v, lookup "id" kw = None /\ lookup "id_usuario" kw = Some v
                   /\ validate_int c "id_usuario" v = Ok (id_usuario u)))
  /\ (lookup "id" kw = None -> lookup "id_usuario" kw = None ->
      exists e es,
        new_UsuarioAPI c kw = Errors e es
        /\ e = mkerror "missing" "id" "Field required" (VDict kw)).
Proof.
  split.
  - intros u H. unfold new_UsuarioAPI in H.
    apply ap_Ok_inv in H as (g3 & s3 & H & H3 & ->).
    apply ap_Ok_inv in H as (g2 & s2 & H & H2 & ->).
    apply ap_Ok_inv in H as (g1 & z & H & H1 & ->).
    injection H as <-. simpl. now apply required_alias_Ok_cases in H1.
  - intros Hid Hname. unfold new_UsuarioAPI, required_alias at 1.
    rewrite Hid, Hname.
    destruct (required_alias "name" "nombre" validate_str kw) as [n|e1 es1],
             (required "email" (validate_email c) kw) as [m|e2 es2];
      simpl; eauto.
Qed.

Example alias_wins_over_field_name :
  new_UsuarioAPI Scenarios.lax_demo usuario_con_ambos_nombres
  = Ok (mkUsuarioAPI 1 "Leanne Graham" "Sincere@april.biz").
Proof. reflexivity. Qed.

(** *** The batch filter: composition and failure *)

Lemma validateStream_app validator a b :
  Spec.validateStream validator (a ++ b)
  = Spec.validateStream validator a ++ Spec.validateStream validator b.
Proof. apply map_app. Qed.

(** X9. Processing two batches one after the other and processing
    their concatenation give the same clean records and the same
    dead-letter entries, in the same order. *)
Theorem procesar_lote_extraccion_app
  (c : coercions) (today : date) (json_text : value -> string)
  (a b : list dict) :
  serializable (a ++ b) ->
  exists la lb,
    procesar_lote_extraccion c today json_text a = Return la
    /\ procesar_lote_extraccion c today json_text b = Return lb
    /\ procesar_lote_extraccion c today json_text (a ++ b)
       = Return (mklote (vistos la ++ vistos lb)
                        (registros_validos la ++ registros_validos lb)
                        (registros_cuarentena la ++ registros_cuarentena lb)).
Proof.
  intros H. unfold serializable in H. apply Forall_app in H as [Ha Hb].
  unfold procesar_lote_extraccion.
  rewrite (procesar_bucle_spec c today json_text a) by exact Ha.
  rewrite (procesar_bucle_spec c today json_text b) by exact Hb.
  rewrite (procesar_bucle_spec c today json_text (a ++ b))
    by (apply Forall_app; split; assumption).
  eexists. eexists. split; [reflexivity|]. split; [reflexivity|].
  simpl. rewrite validateStream_app. unfold Spec.accepted, Spec.rejected.
  now rewrite !flat_map_app, map_app.
Qed.

Lemma procesar_lote_extraccion_app_witness :
  exists la lb,
    procesar_lote_extraccion Scenarios.lax_demo Scenarios.hoy Scenarios.json_keys
      [Scenarios.registro_1; Scenarios.registro_2] = Return la
    /\ procesar_lote_extraccion Scenarios.lax_demo Scenarios.hoy Scenarios.json_keys
         [Scenarios.registro_3; Scenarios.registro_4] = Return lb
    /\ procesar_lote_extraccion Scenarios.lax_demo Scenarios.hoy Scenarios.json_keys
         ([Scenarios.registro_1; Scenarios.registro_2]
          ++ [Scenarios.registro_3; Scenarios.registro_4])
       = Return (mklote (vistos la ++ vistos lb)
                        (registros_validos la ++ registros_validos lb)
                        (registros_cuarentena la ++ registros_cuarentena lb)).
Proof.
  apply (procesar_lote_extraccion_app Scenarios.lax_demo Scenarios.hoy
           Scenarios.json_keys [Scenarios.registro_1; Scenarios.registro_2]
           [Scenarios.registro_3; Scenarios.registro_4]).
  repeat constructor.
Defined.

Lemma procesar_bucle_cases c today json_text :
  forall datos acc,
    procesar_bucle c today json_text datos acc
    = if forallb (archivable c today) datos
      then Return
             (mklote
                (vistos acc ++ datos)
                (registros_validos acc
                 ++ Spec.accepted
                      (Spec.validateStream (TransaccionVentas_model c today) datos))
                (registros_cuarentena acc
                 ++ map (entrada json_text)
                      (Spec.rejected
                         (Spec.validateStream (TransaccionVentas_model c today)
                            datos))))
      else Raise (mkexn TypeError "Object is not JSON serializable").
Proof.
  induction datos as [|registro resto IH]; intros acc.
  - simpl. rewrite !app_nil_r. now destruct acc.
  - change (Spec.validateStream (TransaccionVentas_model c today)
              (registro :: resto))
      with (Spec.verdict (TransaccionVentas_model c today) registro
            :: Spec.validateStream (TransaccionVentas_model c today) resto).
    change (Spec.verdict (TransaccionVentas_model c today) registro)
      with (match new_TransaccionVentas c today registro with
            | Ok m => Spec.Accepted (dump_TransaccionVentas m)
            | Errors e es => Spec.Rejected registro (e :: es)
            end).
    cbn [procesar_bucle forallb]. unfold archivable at 1.
    destruct (new_TransaccionVentas c today registro) as [m|e es].
    + rewrite IH. cbn [andb].
      destruct (forallb (archivable c today) resto); [|reflexivity].
      cbn [Spec.accepted Spec.rejected flat_map map app vistos
           registros_validos registros_cuarentena].
      now rewrite <- !app_assoc.
    + unfold json_dumps.
      destruct (json_serializable (VDict registro)); [|reflexivity].
      rewrite IH. cbn [andb].
      destruct (forallb (archivable c today) resto); [|reflexivity].
      cbn [Spec.accepted Spec.rejected flat_map map app vistos
           registros_validos registros_cuarentena].
      now rewrite <- !app_assoc.
Qed.

Lemma procesar_lote_extraccion_cases_aux c today json_text datos_crudos :
  procesar_lote_extraccion c today json_text datos_crudos
  = if forallb (archivable c today) datos_crudos
    then Return
           (mklote datos_crudos
              (Spec.accepted
                 (Spec.validateStream (TransaccionVentas_model c today) datos_crudos))
              (map (entrada json_text)
                 (Spec.rejected
                    (Spec.validateStream (TransaccionVentas_model c today)
                       datos_crudos))))
    else Raise (mkexn TypeError "Object is not JSON serializable").
Proof. unfold procesar_lote_extraccion. now rewrite procesar_bucle_cases. Qed.

(** X10. The batch filter is all or nothing.  It returns, with one
    verdict per record, exactly when every rejected record can be written
    by [json.dumps]; one rejected record that cannot (a mapping holding a
    [date] object, say) makes the whole call raise [TypeError], and the
    clean records and dead-letter entries built so far are lost.
    Accepted records are never handed to [json.dumps]. *)
Theorem procesar_lote_extraccion_all_or_nothing
  (c : coercions) (today : date) (json_text : value -> string)
  (datos_crudos : list dict) :
  procesar_lote_extraccion c today json_text datos_crudos
  = if forallb (archivable c today) datos_crudos
    then Return
           (mklote datos_crudos
              (Spec.accepted
                 (Spec.validateStream (TransaccionVentas_model c today) datos_crudos))
              (map (entrada json_text)
                 (Spec.rejected
                    (Spec.validateStream (TransaccionVentas_model c today)
                       datos_crudos))))
    else Raise (mkexn TypeError "Object is not JSON serializable").
Proof. apply procesar_lote_extraccion_cases_aux. Qed.

(** Four good or writable records followed by a rejected one that holds
    a date object: nothing comes back. *)
Example one_bad_record_loses_the_batch :
  procesar_lote_extraccion Scenarios.lax_demo Scenarios.hoy Scenarios.json_keys
    (Scenarios.lote_json_sucio ++ [registro_con_fecha])
  = Raise (mkexn TypeError "Object is not JSON serializable").
Proof. reflexivity. Qed.





End ValidatorMore.

(* ================================================================== *)
(** ** Facts about the pipeline of day-07 *)
(* ================================================================== *)

Module PipelineFacts.
Import Py Pydantic Validator Ingestor Asyncio Pipeline ValidatorFacts.

Lemma mapeos_iniciales_dicts datos :
  mapeos_iniciales (map VDict datos) = (datos, false).
Proof. induction datos as [|r datos IH]; simpl; [reflexivity | now rewrite IH]. Qed.

Lemma raise_for_status_ok status : status < 400 -> raise_for_status status = Return tt.
Proof.
  intros H. unfold raise_for_status.
  destruct (400 <=? status) eqn:E; [apply Z.leb_le in E; lia | reflexivity].
Qed.

Lemma ejecutar_pipeline_lista self env ruta d status datos :
  red env (url self) = Responds status (JsonValue (VList (map VDict datos))) ->
  status < 400 ->
  ejecutar_pipeline self env ruta d
  = match guardar_json_local env
            (Spec.accepted (Spec.validateStream (modelo_pydantic self) datos))
            ruta d with
    | (impreso3, d', Raise e) =>
        Some (impreso_hasta_guardar self env datos ++ impreso3, d', Raise e)
    | (impreso3, d', Return _) =>
        Some (impreso_hasta_guardar self env datos ++ impreso3
              ++ [linea_exito
                    (List.length
                       (Spec.accepted
                          (Spec.validateStream (modelo_pydantic self) datos)))],
              d', Return tt)
    end.
Proof.
  intros Hred Hst. unfold ejecutar_pipeline, extraer_datos.
  rewrite Hred, (raise_for_status_ok _ Hst). cbn [medir_tiempo_ejecucion].
  unfold consumir. cbn [iterar]. rewrite mapeos_iniciales_dicts.
  rewrite list_of_validar_en_flujo.
  destruct (guardar_json_local env _ ruta d) as [[impreso3 d'] [u|e]];
    unfold impreso_hasta_guardar; simpl; rewrite <- ?app_assoc; reflexivity.
Qed.

(** X12. When the GET is answered with a status below 400 (200 or not)
    and a list of mappings, the destination can be opened and the clean
    records can be written as JSON, the pipeline ends normally; the
    destination then holds the JSON text of the clean records of the
    accepted inputs, in input order, and nothing else changed on disk;
    one line was printed per discarded record; and the closing line
    counts the records stored, not the records received. *)
Theorem pipeline_stores_the_accepted_records
  (self : IngestorGenerico) (env : entorno) (ruta_destino : string) (d : disco)
  (status : Z) (datos : list dict) :
  red env (url self) = Responds status (JsonValue (VList (map VDict datos))) ->
  status < 400 ->
  abre env ruta_destino = None ->
  json_serializable
    (VList (map VDict
              (Spec.accepted (Spec.validateStream (modelo_pydantic self) datos))))
  = true ->
  ejecutar_pipeline self env ruta_destino d
  = Some
      (impreso_hasta_guardar self env datos
       ++ [String.append "[I/O] Datos guardados exitosamente en: " ruta_destino;
           linea_exito
             (List.length
                (Spec.accepted (Spec.validateStream (modelo_pydantic self) datos)))],
       (ruta_destino,
        json_indentado env
          (VList (map VDict
                    (Spec.accepted
                       (Spec.validateStream (modelo_pydantic self) datos)))))
       :: d,
       Return tt).
Proof.
  intros Hred Hst Habre Hser.
  rewrite (ejecutar_pipeline_lista self env ruta_destino d status datos Hred Hst).
  unfold guardar_json_local. rewrite Habre, Hser. reflexivity.
Qed.

Lemma pipeline_stores_the_accepted_records_witness :
  ejecutar_pipeline (mkIngestorGenerico URL_API (UsuarioAPI_model Scenarios.lax_demo))
    entorno_demo ARCHIVO_SALIDA disco_previo
  = Some
      (["[Red] Iniciando extraccion asincrona desde: https://jsonplaceholder.typicode.com/users";
        "[Telemetria] La funcion 'extraer_datos' tardo 0.2501 segundos.";
        "[Procesamiento] Iniciando validacion de calidad de datos...";
        "[Error de Calidad] Registro descartado. Motivo: Field required";
        "[I/O] Datos guardados exitosamente en: usuarios_validados.json";
        "[Exito] Pipeline finalizado. 1 registros procesados."]%string,
       [("usuarios_validados.json", "id_usuario, nombre, email");
        ("usuarios_validados.json", "[]")]%string,
       Return tt).
Proof.
  apply (pipeline_stores_the_accepted_records
           (mkIngestorGenerico URL_API (UsuarioAPI_model Scenarios.lax_demo))
           entorno_demo ARCHIVO_SALIDA disco_previo 200
           [Scenarios.usuario_1; Scenarios.usuario_2]).
  - reflexivity.
  - lia.
  - reflexivity.
  - reflexivity.
Defined.




(** X14. When the extraction fails (the GET raises, the status is 400 or
    above, or the body cannot be parsed) the pipeline raises that error
    to its caller after printing only the line that announces the
    extraction: no telemetry line, no record is validated, and the disk
    is left as it was. *)
Theorem failed_extraction_leaves_no_trace
  (self : IngestorGenerico) (env : entorno) (ruta_destino : string) (d : disco)
  (e : exn) :
  red env (url self) = GetRaises e
  \/ (exists status body,
        red env (url self) = Responds status body /\ 400 <= status
        /\ e = mkexn ClientError "ClientResponseError")
  \/ (exists status,
        red env (url self) = Responds status (JsonRaises e) /\ status < 400) ->
  ejecutar_pipeline self env ruta_destino d
  = Some ([String.append "[Red] Iniciando extraccion asincrona desde: " (url self)],
          d, Raise e).
Proof.
  unfold ejecutar_pipeline, extraer_datos.
  intros [H | [(status & body & H & Hs & ->) | (status & H & Hs)]]; rewrite H.
  - reflexivity.
  - unfold raise_for_status. apply Z.leb_le in Hs. now rewrite Hs.
  - now rewrite (raise_for_status_ok _ Hs).
Qed.

Lemma failed_extraction_leaves_no_trace_witness :
  ejecutar_pipeline (mkIngestorGenerico URL_API (UsuarioAPI_model Scenarios.lax_demo))
    entorno_503 ARCHIVO_SALIDA disco_previo
  = Some ([String.append "[Red] Iniciando extraccion asincrona desde: " URL_API],
          disco_previo, Raise (mkexn ClientError "ClientResponseError")).
Proof.
  apply (failed_extraction_leaves_no_trace
           (mkIngestorGenerico URL_API (UsuarioAPI_model Scenarios.lax_demo))
           entorno_503 ARCHIVO_SALIDA disco_previo).
  right. left. exists 503, (JsonValue VNone).
  split; [reflexivity|]. split; [lia | reflexivity].
Defined.

Lemma mapeos_iniciales_corta antes v despues :
  isinstance_dict v = false ->
  mapeos_iniciales (map VDict antes ++ v :: despues) = (antes, true).
Proof.
  intros Hv. induction antes as [|r antes IH]; simpl.
  - destruct v; try reflexivity. discriminate.
  - now rewrite IH.
Qed.

(** X15. An answer whose list holds an item that is not a mapping makes
    the pipeline raise [TypeError]: the records before that item have
    been validated, and the discarded ones reported, but nothing is
    stored, the destination is not even opened, and the records after
    the item are never looked at. *)
Theorem malformed_item_stops_the_pipeline
  (self : IngestorGenerico) (env : entorno) (ruta_destino : string) (d : disco)
  (status : Z) (antes : list dict) (v : value) (despues : list value) :
  red env (url self)
  = Responds status (JsonValue (VList (map VDict antes ++ v :: despues))) ->
  status < 400 ->
  isinstance_dict v = false ->
  ejecutar_pipeline self env ruta_destino d
  = Some (impreso_hasta_guardar self env antes, d,
          Raise (mkexn TypeError "argument after ** must be a mapping")).
Proof.
  intros Hred Hst Hv. unfold ejecutar_pipeline, extraer_datos.
  rewrite Hred, (raise_for_status_ok _ Hst). cbn [medir_tiempo_ejecucion].
  unfold consumir. cbn [iterar]. rewrite (mapeos_iniciales_corta _ _ _ Hv).
  rewrite list_of_validar_en_flujo. unfold impreso_hasta_guardar.
  simpl. reflexivity.
Qed.

Lemma malformed_item_stops_the_pipeline_witness :
  ejecutar_pipeline (mkIngestorGenerico URL_API (UsuarioAPI_model Scenarios.lax_demo))
    entorno_mixto ARCHIVO_SALIDA disco_previo
  = Some (impreso_hasta_guardar
            (mkIngestorGenerico URL_API (UsuarioAPI_model Scenarios.lax_demo))
            entorno_mixto [Scenarios.usuario_2],
          disco_previo,
          Raise (mkexn TypeError "argument after ** must be a mapping")).
Proof.
  apply (malformed_item_stops_the_pipeline
           (mkIngestorGenerico URL_API (UsuarioAPI_model Scenarios.lax_demo))
           entorno_mixto ARCHIVO_SALIDA disco_previo 200
           [Scenarios.usuario_2] (VInt 7) [VDict Scenarios.usuario_1]).
  - reflexivity.
  - lia.
  - reflexivity.
Defined.

(** *** The generator is lazy *)

Lemma avanzar_hasta_valido modelo rechazados bueno m resto :
  Forall (fun r => exists e es, call modelo r = Errors e es) rechazados ->
  call modelo bueno = Ok m ->
  avanzar modelo (rechazados ++ bueno :: resto)
  = (lineas_descarte (Spec.rejected (Spec.validateStream modelo rechazados)),
     Some (model_dump modelo m, resto)).
Proof.
  intros Hrej Hok. induction Hrej as [|r rechazados (e & es & Hr) _ IH]; simpl.
  - now rewrite Hok.
  - rewrite Hr, IH. unfold Spec.verdict. rewrite Hr. reflexivity.
Qed.

(** X16. The generator of [validar_en_flujo] does no work ahead of its
    consumer: the first [next] prints the banner, reports the records
    discarded before the first valid one, yields the clean form of that
    one and stops there, leaving every later record unvisited. *)
Theorem validar_en_flujo_is_lazy
  (self : IngestorGenerico) (rechazados : list dict) (bueno : dict)
  (m : instance (modelo_pydantic self)) (resto : list dict) :
  Forall (fun r => exists e es, call (modelo_pydantic self) r = Errors e es)
         rechazados ->
  call (modelo_pydantic self) bueno = Ok m ->
  next self (validar_en_flujo self (rechazados ++ bueno :: resto))
  = (banner
       :: lineas_descarte
            (Spec.rejected (Spec.validateStream (modelo_pydantic self) rechazados)),
     Some (model_dump (modelo_pydantic self) m),
     Suspended resto).
Proof.
  intros Hrej Hok. unfold validar_en_flujo, next.
  now rewrite (avanzar_hasta_valido _ _ _ m resto Hrej Hok).
Qed.

Lemma validar_en_flujo_is_lazy_witness :
  next (mkIngestorGenerico URL_API (UsuarioAPI_model Scenarios.lax_demo))
    (validar_en_flujo
       (mkIngestorGenerico URL_API (UsuarioAPI_model Scenarios.lax_demo))
       ([Scenarios.usuario_2] ++ Scenarios.usuario_1 :: [Scenarios.usuario_2]))
  = (banner
       :: lineas_descarte
            (Spec.rejected
               (Spec.validateStream (UsuarioAPI_model Scenarios.lax_demo)
                  [Scenarios.usuario_2])),
     Some (dump_UsuarioAPI (mkUsuarioAPI 1 "Leanne Graham" "Sincere@april.biz")),
     Suspended [Scenarios.usuario_2]).
Proof.
  apply (validar_en_flujo_is_lazy
           (mkIngestorGenerico URL_API (UsuarioAPI_model Scenarios.lax_demo))
           [Scenarios.usuario_2] Scenarios.usuario_1
           (mkUsuarioAPI 1 "Leanne Graham" "Sincere@april.biz")
           [Scenarios.usuario_2]).
  - constructor; [|constructor]. eexists. eexists. vm_compute. reflexivity.
  - reflexivity.
Defined.

(** *** A contract with a date cannot be stored *)

Lemma dump_TransaccionVentas_not_serializable m :
  json_serializable (VDict (dump_TransaccionVentas m)) = false.
Proof. reflexivity. Qed.

Lemma limpios_con_fecha c today :
  forall datos,
    Spec.accepted (Spec.validateStream (TransaccionVentas_model c today) datos) <> [] ->
    json_serializable
      (VList (map VDict
                (Spec.accepted
                   (Spec.validateStream (TransaccionVentas_model c today) datos))))
    = false.
Proof.
  induction datos as [|r datos IH]; intros H; [now elim H|].
  simpl in *. unfold Spec.verdict in *. simpl in *.
  destruct (new_TransaccionVentas c today r) as [m|e es]; simpl in *.
  - reflexivity.
  - now apply IH.
Qed.

(** X17. An ingestor built on the [TransaccionVentas] contract cannot
    store what it accepts: [model_dump] leaves the transaction date as a
    [date] object, which [json.dump] refuses.  As soon as one record is
    accepted the pipeline raises [TypeError] at the storage step, after
    the destination has been opened for writing, so that what was in the
    destination before is gone. *)
Theorem date_contract_cannot_be_stored
  (c : coercions) (today : date) (direccion : string) (env : entorno)
  (ruta_destino : string) (d : disco) (status : Z) (datos : list dict) :
  red env direccion = Responds status (JsonValue (VList (map VDict datos))) ->
  status < 400 ->
  abre env ruta_destino = None ->
  Spec.accepted (Spec.validateStream (TransaccionVentas_model c today) datos) <> [] ->
  ejecutar_pipeline (mkIngestorGenerico direccion (TransaccionVentas_model c today))
    env ruta_destino d
  = Some
      (impreso_hasta_guardar
         (mkIngestorGenerico direccion (TransaccionVentas_model c today)) env datos,
       (ruta_destino,
        json_truncado env
          (VList (map VDict
                    (Spec.accepted
                       (Spec.validateStream (TransaccionVentas_model c today) datos)))))
       :: d,
       Raise (mkexn TypeError "Object is not JSON serializable")).
Proof.
  intros Hred Hst Habre Hne.
  rewrite (ejecutar_pipeline_lista
             (mkIngestorGenerico direccion (TransaccionVentas_model c today))
             env ruta_destino d status datos Hred Hst).
  unfold guardar_json_local. rewrite Habre. cbn [modelo_pydantic].
  rewrite (limpios_con_fecha c today datos Hne). now rewrite app_nil_r.
Qed.

Lemma date_contract_cannot_be_stored_witness :
  ejecutar_pipeline
    (mkIngestorGenerico "https://ventas.example/api"
       (TransaccionVentas_model Scenarios.lax_demo Scenarios.hoy))
    entorno_ventas "ventas.json" disco_previo
  = Some
      (impreso_hasta_guardar
         (mkIngestorGenerico "https://ventas.example/api"
            (TransaccionVentas_model Scenarios.lax_demo Scenarios.hoy))
         entorno_ventas Scenarios.lote_json_sucio,
       ("ventas.json"%string,
        json_truncado entorno_ventas
          (VList (map VDict
                    (Spec.accepted
                       (Spec.validateStream
                          (TransaccionVentas_model Scenarios.lax_demo Scenarios.hoy)
                          Scenarios.lote_json_sucio)))))
       :: disco_previo,
       Raise (mkexn TypeError "Object is not JSON serializable")).
Proof.
  apply (date_contract_cannot_be_stored Scenarios.lax_demo Scenarios.hoy
           "https://ventas.example/api" entorno_ventas "ventas.json" disco_previo
           200 Scenarios.lote_json_sucio).
  - reflexivity.
  - lia.
  - reflexivity.
  - vm_compute. discriminate.
Defined.

End PipelineFacts.


(* ================================================================== *)
(** ** Facts about the decorators and the log manager of day-02 *)
(* ================================================================== *)

Module DecoradoresFacts.
Import Decoradores.

Section Retry.
Context {A : Type}.
Variables (nombre : string) (max_intentos delay : Z).
Variable func : nat -> traza * resultado A.
Variables (tr : nat -> traza) (e : nat -> excepcion).

Lemma sleep_ok : 0 <= delay -> sleep delay = ([Duerme delay], Devuelve tt).
Proof.
  intros Hd. unfold sleep.
  destruct (Z.ltb_spec delay 0) as [Hlt | _]; [lia | reflexivity].
Qed.

Lemma retry_bucle_exito (t : traza) (r : A) :
  0 <= delay ->
  forall k restantes base,
    (k < restantes)%nat ->
    Z.of_nat (base + k) + 1 <= max_intentos ->
    (forall j, (base <= j < base + k)%nat -> func j = (tr j, Lanza (e j))) ->
    func (base + k)%nat = (t, Devuelve r) ->
    retry_bucle nombre max_intentos delay func restantes (Z.of_nat base + 1) base
    = (flat_map (intento_fallido max_intentos delay tr e) (seq base k) ++ t,
       Devuelve (Some r)).
Proof.
  intros Hd. induction k as [|k IH]; intros restantes base Hk Hmax Hfail Hok.
  - destruct restantes as [|restantes]; [lia|].
    rewrite Nat.add_0_r in Hok. simpl. rewrite Hok. reflexivity.
  - destruct restantes as [|restantes]; [lia|].
    cbn [retry_bucle]. rewrite (Hfail base) by lia.
    destruct (Z.eqb_spec (Z.of_nat base + 1) max_intentos) as [Heq | _]; [lia|].
    rewrite (sleep_ok Hd).
    replace (Z.of_nat base + 1 + 1) with (Z.of_nat (S base) + 1) by lia.
    rewrite (IH restantes (S base)).
    + cbn [seq flat_map]. unfold intento_fallido at 2.
      rewrite <- !app_assoc. reflexivity.
    + lia.
    + replace (S base + k)%nat with (base + S k)%nat by lia. exact Hmax.
    + intros j Hj. apply Hfail. lia.
    + replace (S base + k)%nat with (base + S k)%nat by lia. exact Hok.
Qed.

Lemma retry_bucle_agotado :
  0 <= delay ->
  forall n restantes base,
    (n < restantes)%nat ->
    Z.of_nat (base + n) + 1 = max_intentos ->
    (forall j, (base <= j <= base + n)%nat -> func j = (tr j, Lanza (e j))) ->
    retry_bucle nombre max_intentos delay func restantes (Z.of_nat base + 1) base
    = (flat_map (intento_fallido max_intentos delay tr e) (seq base n)
         ++ tr (base + n)%nat
         ++ [Imprime (linea_advertencia max_intentos max_intentos (e (base + n)%nat));
             Imprime (linea_critica nombre max_intentos)],
       Lanza (e (base + n)%nat)).
Proof.
  intros Hd. induction n as [|n IH]; intros restantes base Hn Hmax Hfail.
  - destruct restantes as [|restantes]; [lia|].
    rewrite Nat.add_0_r in *. cbn [retry_bucle]. rewrite (Hfail base) by lia.
    destruct (Z.eqb_spec (Z.of_nat base + 1) max_intentos) as [_ | Hne]; [|lia].
    rewrite Hmax. reflexivity.
  - destruct restantes as [|restantes]; [lia|].
    cbn [retry_bucle]. rewrite (Hfail base) by lia.
    destruct (Z.eqb_spec (Z.of_nat base + 1) max_intentos) as [Heq | _]; [lia|].
    rewrite (sleep_ok Hd).
    replace (Z.of_nat base + 1 + 1) with (Z.of_nat (S base) + 1) by lia.
    rewrite (IH restantes (S base)).
    + replace (S base + n)%nat with (base + S n)%nat by lia.
      cbn [seq flat_map]. unfold intento_fallido at 2.
      rewrite <- !app_assoc. reflexivity.
    + lia.
    + replace (S base + n)%nat with (base + S n)%nat by lia. exact Hmax.
    + intros j Hj. apply Hfail. lia.
Qed.


End Retry.

(** X18. [retry] hands back the value of the first call that succeeds
    and stops calling: if the calls [0 .. k-1] failed and call [k], with
    [k] below [max_intentos], returned [r], the wrapper returns [r] after
    one warning and one pause of [delay] per failure, and nothing
    else. *)
Theorem retry_returns_the_first_success {A} (nombre : string)
  (max_intentos delay : Z) (func : nat -> traza * resultado A)
  (tr : nat -> traza) (e : nat -> excepcion) (k : nat) (t : traza) (r : A) :
  0 <= delay ->
  Z.of_nat k < max_intentos ->
  (forall j, (j < k)%nat -> func j = (tr j, Lanza (e j))) ->
  func k = (t, Devuelve r) ->
  retry max_intentos delay nombre func
  = (flat_map (intento_fallido max_intentos delay tr e) (seq 0 k) ++ t,
     Devuelve (Some r)).
Proof.
  intros Hd Hk Hfail Hok. unfold retry.
  apply (retry_bucle_exito nombre max_intentos delay func tr e t r Hd k
           (Z.to_nat max_intentos) 0%nat).
  - lia.
  - simpl. lia.
  - intros j Hj. apply Hfail. lia.
  - exact Hok.
Qed.

Lemma retry_returns_the_first_success_witness :
  retry 3 2 "consulta" al_tercero
  = ([Imprime "[Advertencia] Intento 1/3 fallido: uno"; Duerme 2;
      Imprime "[Advertencia] Intento 2/3 fallido: dos"; Duerme 2;
      Imprime "listo"],
     Devuelve (Some 42)).
Proof.
  apply (retry_returns_the_first_success "consulta" 3 2 al_tercero
           (fun _ => [])
           (fun j => match j with
                     | 0%nat => mkexcepcion ConnectionError "uno"
                     | _ => mkexcepcion OtraExcepcion "dos"
                     end)
           2 [Imprime "listo"] 42).
  - lia.
  - lia.
  - intros [|[|j]] Hj; [reflexivity | reflexivity | lia].
  - reflexivity.
Defined.

(** X19. When every one of the [max_intentos] calls fails, [retry]
    raises the exception of the last call, not of the first; it has
    paused after each failure but the last, and the last two lines it
    printed are the warning of the last attempt and the critical
    line. *)
Theorem retry_gives_up_with_the_last_error {A} (nombre : string)
  (max_intentos delay : Z) (func : nat -> traza * resultado A)
  (tr : nat -> traza) (e : nat -> excepcion) (n : nat) :
  0 <= delay ->
  max_intentos = Z.of_nat (S n) ->
  (forall j, (j <= n)%nat -> func j = (tr j, Lanza (e j))) ->
  retry max_intentos delay nombre func
  = (flat_map (intento_fallido max_intentos delay tr e) (seq 0 n)
       ++ tr n
       ++ [Imprime (linea_advertencia max_intentos max_intentos (e n));
           Imprime (linea_critica nombre max_intentos)],
     Lanza (e n)).
Proof.
  intros Hd Hmax Hfail. unfold retry.
  apply (retry_bucle_agotado nombre max_intentos delay func tr e Hd n
           (Z.to_nat max_intentos) 0%nat).
  - lia.
  - simpl. lia.
  - intros j Hj. apply Hfail. lia.
Qed.

Lemma retry_gives_up_with_the_last_error_witness :
  retry 3 0 "consulta" nunca
  = ([Imprime "[Advertencia] Intento 1/3 fallido: 0"; Duerme 0;
      Imprime "[Advertencia] Intento 2/3 fallido: 1"; Duerme 0;
      Imprime "[Advertencia] Intento 3/3 fallido: 2";
      Imprime "[Error Crítico] La función 'consulta' falló tras 3 intentos."],
     Lanza (mkexcepcion ConnectionError "2")).
Proof.
  apply (retry_gives_up_with_the_last_error "consulta" 3 0 nunca
           (fun _ => [])
           (fun j => mkexcepcion ConnectionError (Py.str_of_int (Z.of_nat j)))
           2).
  - lia.
  - reflexivity.
  - intros j Hj. reflexivity.
Defined.


(** X21. A negative [delay] makes [retry] lose the error: after the
    first failed call, with attempts left, [time.sleep] raises
    [ValueError], which leaves the wrapper in place of the function's
    exception, and no second call is made. *)
Theorem retry_negative_delay_hides_the_failure {A} (nombre : string)
  (max_intentos delay : Z) (func : nat -> traza * resultado A)
  (t : traza) (e : excepcion) :
  delay < 0 ->
  1 < max_intentos ->
  func 0%nat = (t, Lanza e) ->
  retry max_intentos delay nombre func
  = (t ++ [Imprime (linea_advertencia 1 max_intentos e)],
     Lanza (mkexcepcion ValueError "sleep length must be non-negative")).
Proof.
  intros Hd Hmax Hfail. unfold retry.
  destruct (Z.to_nat max_intentos) as [|restantes] eqn:Hn; [lia|].
  cbn [retry_bucle]. rewrite Hfail.
  destruct (Z.eqb_spec 1 max_intentos) as [Heq | _]; [lia|].
  unfold sleep. destruct (Z.ltb_spec delay 0) as [_ | Hge]; [reflexivity | lia].
Qed.

Lemma retry_negative_delay_hides_the_failure_witness :
  retry 3 (-1) "consulta" nunca
  = ([Imprime "[Advertencia] Intento 1/3 fallido: 0"],
     Lanza (mkexcepcion ValueError "sleep length must be non-negative")).
Proof.
  apply (retry_negative_delay_hides_the_failure "consulta" 3 (-1) nunca []
           (mkexcepcion ConnectionError "0")).
  - lia.
  - lia.
  - reflexivity.
Defined.

Lemma conectar_cuerpo_falla (sorteo : float) :
  PrimFloat.ltb sorteo 0.6 = true ->
  conectar_cuerpo sorteo
  = ([Imprime "Intentando establecer conexión a la base de datos..."],
     Lanza sin_red).
Proof. intros H. unfold conectar_cuerpo. rewrite H. reflexivity. Qed.

Lemma conectar_cuerpo_conecta (sorteo : float) :
  PrimFloat.ltb sorteo 0.6 = false ->
  conectar_cuerpo sorteo
  = ([Imprime "Intentando establecer conexión a la base de datos...";
      Imprime "¡Conexión establecida con éxito!";
      Duerme 1],
     Devuelve true).
Proof. intros H. unfold conectar_cuerpo. rewrite H. reflexivity. Qed.

Lemma reintentos_casos (azar : nat -> float) :
  (conecta azar = true /\
   exists t,
     retry 3 2 "conectar_bd_simulada" (fun k => conectar_cuerpo (azar k))
     = (t, Devuelve (Some true)))
  \/
  (conecta azar = false /\
   exists t,
     retry 3 2 "conectar_bd_simulada" (fun k => conectar_cuerpo (azar k))
     = (t ++ [Imprime (linea_critica "conectar_bd_simulada" 3)], Lanza sin_red)).
Proof.
  set (func := fun k => conectar_cuerpo (azar k)).
  set (tr := fun _ : nat =>
               [Imprime "Intentando establecer conexión a la base de datos..."]).
  set (e := fun _ : nat => sin_red).
  assert (Hexito : forall k,
             (k < 3)%nat ->
             (forall j, (j < k)%nat -> PrimFloat.ltb (azar j) 0.6 = true) ->
             PrimFloat.ltb (azar k) 0.6 = false ->
             exists t, retry 3 2 "conectar_bd_simulada" func
                       = (t, Devuelve (Some true))).
  { intros k Hk Hfail Hok. eexists. unfold retry.
    apply (retry_bucle_exito "conectar_bd_simulada" 3 2 func tr e
             [Imprime "Intentando establecer conexión a la base de datos...";
              Imprime "¡Conexión establecida con éxito!";
              Duerme 1] true
             ltac:(lia) k (Z.to_nat 3) 0%nat).
    - lia.
    - lia.
    - intros j Hj. unfold func. apply conectar_cuerpo_falla, Hfail. lia.
    - unfold func. apply conectar_cuerpo_conecta. exact Hok. }
  unfold conecta. cbn [existsb].
  destruct (PrimFloat.ltb (azar 0%nat) 0.6) eqn:H0.
  2:{ left. split; [reflexivity|]. apply (Hexito 0%nat); [lia | | exact H0].
      intros j Hj. lia. }
  destruct (PrimFloat.ltb (azar 1%nat) 0.6) eqn:H1.
  2:{ left. split; [reflexivity|]. apply (Hexito 1%nat); [lia | | exact H1].
      intros [|j] Hj; [exact H0 | lia]. }
  destruct (PrimFloat.ltb (azar 2%nat) 0.6) eqn:H2.
  2:{ left. split; [reflexivity|]. apply (Hexito 2%nat); [lia | | exact H2].
      intros [|[|j]] Hj; [exact H0 | exact H1 | lia]. }
  right. split; [reflexivity|].
  exists (flat_map (intento_fallido 3 2 tr e) (seq 0 2)
            ++ tr 2%nat ++ [Imprime (linea_advertencia 3 3 (e 2%nat))]).
  unfold retry.
  refine (eq_trans
            (retry_bucle_agotado "conectar_bd_simulada" 3 2 func tr e
               ltac:(lia) 2 (Z.to_nat 3) 0%nat _ _ _) _).
  - lia.
  - lia.
  - intros [|[|[|j]]] Hj; unfold func; apply conectar_cuerpo_falla;
      [exact H0 | exact H1 | exact H2 | lia].
  - rewrite <- !app_assoc. reflexivity.
Qed.

(** X22. [conectar_bd_simulada] has two outcomes only.  If one of the
    first three draws is at least [0.6] it returns [True], and the last
    line printed is the timing of [timeit]; otherwise it raises the
    [ConnectionError] of the third attempt, the last line printed is the
    critical line of [retry], and [timeit] reports no time at all. *)
Theorem conectar_bd_simulada_outcomes (azar : nat -> float) (tiempo : string) :
  (conecta azar = true /\
   exists t,
     conectar_bd_simulada azar tiempo
     = (t ++ [Imprime (linea_monitoreo "conectar_bd_simulada" tiempo)],
        Devuelve (Some true)))
  \/
  (conecta azar = false /\
   exists t,
     conectar_bd_simulada azar tiempo
     = (t ++ [Imprime (linea_critica "conectar_bd_simulada" 3)],
        Lanza (mkexcepcion ConnectionError "Timeout de red al conectar al host."))).
Proof.
  unfold conectar_bd_simulada.
  destruct (reintentos_casos azar) as [[Hc [t Ht]] | [Hc [t Ht]]]; rewrite Ht.
  - left. split; [exact Hc|]. exists t. reflexivity.
  - right. split; [exact Hc|]. exists t. reflexivity.
Qed.

(** X23. [ManejadorLogs] closes the log on every path and never
    swallows an exception: whatever the block does, as long as it leaves
    the file open, the file ends up closed with the state line as its
    last chunk ([ERROR] with the message when the block raised, [ÉXITO]
    otherwise) and the block's own result, value or exception, is the
    result of the [with] statement.  If the block closes the file
    itself, [__exit__] fails to write and the statement raises
    [ValueError], whatever the block's result was. *)
Theorem ManejadorLogs_closes_and_reraises {A} (previo : list string)
  (ahora : string) (cuerpo : archivo -> archivo * traza * resultado (option A))
  (f : archivo) (t : traza) (r : resultado (option A)) :
  cuerpo (enter previo ahora) = (f, t, r) ->
  (cerrado f = false ->
   con_ManejadorLogs previo ahora cuerpo
   = (mkarchivo (escrito f ++ [linea_estado (excepcion_de r)]) true, t, r))
  /\
  (cerrado f = true ->
   con_ManejadorLogs previo ahora cuerpo
   = (f, t, Lanza (mkexcepcion ValueError "I/O operation on closed file."))).
Proof.
  intros Hc. unfold con_ManejadorLogs, exit, write. rewrite Hc.
  split; intros Hf; destruct r as [a | ex]; rewrite Hf; reflexivity.
Qed.

Lemma ManejadorLogs_closes_and_reraises_witness :
  con_ManejadorLogs ["antes"%string] "hoy"
    (fun log => (fst (write log "a medias"), [],
                 @Lanza (option unit) (mkexcepcion OtraExcepcion "roto")))
  = (mkarchivo ["antes"; cabecera "hoy"; "a medias";
                linea_estado (Some (mkexcepcion OtraExcepcion "roto"))]%string
               true,
     [], Lanza (mkexcepcion OtraExcepcion "roto")).
Proof.
  apply (ManejadorLogs_closes_and_reraises ["antes"%string] "hoy"
           (fun log => (fst (write log "a medias"), [],
                        @Lanza (option unit) (mkexcepcion OtraExcepcion "roto")))
           (mkarchivo ["antes"; cabecera "hoy"; "a medias"]%string false)
           [] (Lanza (mkexcepcion OtraExcepcion "roto"))).
  - reflexivity.
  - reflexivity.
Defined.

(** X24. [ejecutar_pipeline] never raises and always logs success: the
    file is closed and consists of what it held, the header, the detail
    line if and only if the connection was made, and the state line
    [Estado: ÉXITO]; the [ERROR] state is not written even when the
    three attempts have failed, the [ConnectionError] being caught
    inside the [with] block. *)
Theorem ejecutar_pipeline_always_logs_success (azar : nat -> float)
  (tiempo ahora : string) (previo : list string) :
  exists t,
    Decoradores.ejecutar_pipeline azar tiempo ahora previo
    = (mkarchivo (previo ++ [cabecera ahora]
                    ++ (if conecta azar then [detalle] else [])
                    ++ [linea_estado None])
                 true,
       t, Devuelve None).
Proof.
  unfold Decoradores.ejecutar_pipeline, con_ManejadorLogs, conectar_bd_simulada.
  destruct (reintentos_casos azar) as [[Hc [t Ht]] | [Hc [t Ht]]]; rewrite Ht, Hc.
  - eexists. unfold timeit, enter, write, exit, write, close.
    cbn [cerrado escrito fst snd]. rewrite <- !app_assoc. reflexivity.
  - eexists. unfold timeit, es_ConnectionError, sin_red, enter, exit, write, close.
    cbn [clase_de cerrado escrito fst snd]. rewrite <- !app_assoc. reflexivity.
Qed.

End DecoradoresFacts.

(* ================================================================== *)
(** ** Facts about the error filter of day-01 *)
(* ================================================================== *)

Module FiltroFacts.
Import Str StrFacts Pipeline Filtro.


























Lemma lstrip_nonempty_fixed s : strip s = s -> lstrip s = s /\ rstrip s = s.
Proof.
  intros H.
  assert (Hhead : clean_head s).
  { rewrite <- H. unfold strip. apply rstrip_clean_head, lstrip_clean_head. }
  pose proof (lstrip_fixed s Hhead) as Hl. split; [exact Hl|].
  unfold strip in H. rewrite Hl in H. exact H.
Qed.


Lemma leer_entrada_tras_abrir d texto :
  leer archivo_entrada ((archivo_salida, texto) :: d) = leer archivo_entrada d.
Proof. reflexivity. Qed.






(** X27. When the source file is missing the script ends with
    [FileNotFoundError], raised at the first step of the generator and
    not at its call: by then the destination has been opened for
    writing, so whatever it held is lost and it is left empty; only the
    first message has been printed. *)
Theorem missing_source_empties_the_destination (d : disco) :
  leer archivo_entrada d = None ->
  snd (script d) = FileNotFoundError archivo_entrada
  /\ leer archivo_salida (disco_de (script d)) = Some EmptyString
  /\ fst (fst (script d))
     = ["Buscando errores en dataset_masivo_logs.csv..."%string].
Proof.
  intros H. unfold script, filtrar_errores_log.
  rewrite leer_entrada_tras_abrir, H. repeat split.
Qed.

Lemma missing_source_empties_the_destination_witness :
  snd (script [(archivo_salida, "ERROR de ayer"%string)])
  = FileNotFoundError archivo_entrada
  /\ leer archivo_salida
       (disco_de (script [(archivo_salida, "ERROR de ayer"%string)]))
     = Some EmptyString
  /\ fst (fst (script [(archivo_salida, "ERROR de ayer"%string)]))
     = ["Buscando errores en dataset_masivo_logs.csv..."%string].
Proof.
  apply (missing_source_empties_the_destination
           [(archivo_salida, "ERROR de ayer"%string)]).
  reflexivity.
Defined.

End FiltroFacts.

(* ================================================================== *)
(** ** Facts about the two versions of the sales step of day-06 *)
(* ================================================================== *)

Module CleanCodeFacts.
Import Py CleanCode.

Lemma lookup_setitem_same k v d : lookup k (setitem k v d) = Some v.
Proof.
  induction d as [|[k' w] d IH]; simpl.
  - rewrite String.eqb_refl. reflexivity.
  - destruct (String.eqb k' k) eqn:E; simpl; rewrite E; auto.
Qed.

Lemma lookup_setitem_other k k' v d :
  k' <> k -> lookup k' (setitem k v d) = lookup k' d.
Proof.
  intros Hne. induction d as [|[k0 w] d IH]; simpl.
  - destruct (String.eqb_spec k k') as [E | _]; [now elim Hne | reflexivity].
  - destruct (String.eqb_spec k0 k) as [E | N]; simpl.
    + destruct (String.eqb_spec k0 k') as [E' | _]; [|reflexivity].
      elim Hne. congruence.
    + destruct (String.eqb k0 k'); auto.
Qed.

Lemma length_poner r d h : List.length (poner r d h) = List.length h.
Proof.
  revert r. induction h as [|x h IH]; intros [|r]; simpl; auto.
Qed.

Lemma deref_poner_same r d h :
  (r < List.length h)%nat -> deref (poner r d h) r = d.
Proof.
  unfold deref. revert r. induction h as [|x h IH]; intros [|r] Hr; simpl in *;
    try lia; [reflexivity | apply IH; lia].
Qed.

Lemma deref_poner_other r r' d h :
  r <> r' -> deref (poner r d h) r' = deref h r'.
Proof.
  unfold deref. revert r r'.
  induction h as [|x h IH]; intros [|r] [|r'] Hne; simpl; auto; congruence.
Qed.

Lemma poner_last h x d : poner (List.length h) d (h ++ [x]) = h ++ [d].
Proof. induction h as [|y h IH]; simpl; [reflexivity | now rewrite IH]. Qed.

Lemma deref_last h x : deref (h ++ [x]) (List.length h) = x.
Proof. unfold deref. rewrite nth_middle. reflexivity. Qed.

Lemma deref_app h h' r :
  (r < List.length h)%nat -> deref (h ++ h') r = deref h r.
Proof. intros Hr. unfold deref. apply app_nth1, Hr. Qed.

Lemma deref_valid h r k v :
  lookup k (deref h r) = Some v -> (r < List.length h)%nat.
Proof.
  intros H. destruct (Nat.lt_ge_cases r (List.length h)) as [Hlt | Hge]; [exact Hlt|].
  unfold deref in H. rewrite nth_overflow in H by exact Hge. discriminate.
Qed.

Section Redondeo.
Variable round2 : float -> float.

(** *** The clean version allocates and never writes to what exists *)

Lemma calcular_forma h trx :
  exists x,
    fst (calcular_impuestos_y_totales round2 h trx) = h ++ [x]
    /\ forall n, snd (calcular_impuestos_y_totales round2 h trx) = Devuelve n ->
                 n = List.length h.
Proof.
  unfold calcular_impuestos_y_totales.
  destruct (getitem (deref (h ++ [deref h trx]) (List.length h)) "monto_usd")
    as [monto_base | e].
  2:{ eexists. split; [reflexivity | discriminate]. }
  destruct (por monto_base TASA_IVA_SV) as [impuesto | e].
  2:{ eexists. split; [reflexivity | discriminate]. }
  rewrite !poner_last.
  destruct (mas monto_base impuesto) as [total | e].
  2:{ eexists. split; [reflexivity | discriminate]. }
  rewrite poner_last. eexists. split; [reflexivity|].
  intros n Hn. simpl in Hn. congruence.
Qed.


(** *** The filter hands over transactions that have an amount *)

Lemma mayor_que_cero_error v e : mayor_que_cero v = Lanza e -> e = TypeError.
Proof. destruct v; simpl; congruence. Qed.

Lemma condicion_valida_error d e : condicion_valida d = Lanza e -> e = TypeError.
Proof.
  unfold condicion_valida.
  destruct (igual_a (get_o d "estado" VNone) "ACTIVO"); [|discriminate].
  apply mayor_que_cero_error.
Qed.

Lemma filtrar_error h datos e :
  filtrar_transacciones_validas h datos = Lanza e -> e = TypeError.
Proof.
  induction datos as [|trx datos IH]; simpl; [discriminate|].
  destruct (condicion_valida (deref h trx)) as [conserva | e'] eqn:Hc.
  - destruct (filtrar_transacciones_validas h datos) as [validas | e''].
    + discriminate.
    + intros H. injection H as <-. apply IH. reflexivity.
  - intros H. injection H as <-. exact (condicion_valida_error _ _ Hc).
Qed.

Lemma filtrar_validas h datos validas :
  filtrar_transacciones_validas h datos = Devuelve validas ->
  Forall (fun trx => condicion_valida (deref h trx) = Devuelve true) validas.
Proof.
  revert validas. induction datos as [|trx datos IH]; simpl; intros validas H.
  - injection H as <-. constructor.
  - destruct (condicion_valida (deref h trx)) as [conserva | e] eqn:Hc; [|discriminate].
    destruct (filtrar_transacciones_validas h datos) as [validas' | e]; [|discriminate].
    injection H as <-. specialize (IH validas' eq_refl).
    destruct conserva; [constructor; assumption | exact IH].
Qed.

Lemma condicion_valida_monto d :
  condicion_valida d = Devuelve true ->
  exists v, lookup "monto_usd" d = Some v /\ mayor_que_cero v = Devuelve true.
Proof.
  unfold condicion_valida, get_o.
  destruct (igual_a _ "ACTIVO"); [|discriminate].
  destruct (lookup "monto_usd" d) as [v|]; [|discriminate].
  intros H. exists v. split; [reflexivity | exact H].
Qed.

Lemma operando_positivo v :
  mayor_que_cero v = Devuelve true ->
  (exists x, operando v = Devuelve x) \/ operando v = Lanza OverflowError.
Proof.
  destruct v; simpl; try discriminate; intros _.
  - left. eexists. reflexivity.
  - destruct (float_of_int z); [left; eexists; reflexivity | right; reflexivity].
  - left. eexists. reflexivity.
Qed.

Lemma calcular_con_monto h trx v :
  lookup "monto_usd" (deref h trx) = Some v ->
  mayor_que_cero v = Devuelve true ->
  snd (calcular_impuestos_y_totales round2 h trx) = Devuelve (List.length h)
  \/ snd (calcular_impuestos_y_totales round2 h trx) = Lanza OverflowError.
Proof.
  intros Hv Hpos. unfold calcular_impuestos_y_totales, getitem.
  rewrite deref_last, Hv. unfold por, mas.
  destruct (operando_positivo v Hpos) as [[x ->] | ->]; [left | right]; reflexivity.
Qed.

Lemma enriquecer_error h validas :
  Forall (fun trx => condicion_valida (deref h trx) = Devuelve true) validas ->
  forall nuevos e,
    snd (enriquecer round2 (h ++ nuevos) validas) = Lanza e -> e = OverflowError.
Proof.
  induction 1 as [|trx validas Htrx _ IH]; intros nuevos e; [discriminate|].
  cbn [enriquecer].
  destruct (condicion_valida_monto _ Htrx) as (v & Hv & Hpos).
  assert (Hv' : lookup "monto_usd" (deref (h ++ nuevos) trx) = Some v).
  { rewrite deref_app; [exact Hv | exact (deref_valid _ _ _ _ Hv)]. }
  pose proof (calcular_con_monto (h ++ nuevos) trx v Hv' Hpos) as Hcalc.
  destruct (calcular_forma (h ++ nuevos) trx) as (x & Hh & _).
  destruct (calcular_impuestos_y_totales round2 (h ++ nuevos) trx)
    as [h1 [nueva | e1]]; simpl in Hh, Hcalc; subst h1.
  - rewrite <- app_assoc. specialize (IH (nuevos ++ [x]) e).
    destruct (enriquecer round2 (h ++ nuevos ++ [x]) validas) as [h2 [nuevas | e2]].
    + discriminate.
    + exact IH.
  - intros H. simpl in H. injection H as <-.
    destruct Hcalc as [Hc | Hc]; congruence.
Qed.

(** *** The loop of [process] *)

Lemma pasa_ext h h' d :
  lookup "st" (deref h' d) = lookup "st" (deref h d) ->
  lookup "amt" (deref h' d) = lookup "amt" (deref h d) ->
  pasa h' d = pasa h d.
Proof.
  intros Hst Hamt. unfold pasa, condicion_process, get_o. now rewrite Hst, Hamt.
Qed.

Lemma process_bucle_spec data :
  forall h res h' res',
    Forall (fun d => (d < List.length h)%nat) data ->
    process_bucle round2 h data res = (h', Devuelve res') ->
    res' = res ++ filter (pasa h) data
    /\ List.length h' = List.length h
    /\ otras_claves h h'
    /\ (forall r, ~ In r (filter (pasa h) data) -> deref h' r = deref h r)
    /\ (forall d, In d (filter (pasa h) data) -> gravada round2 h h' d).
Proof.
  induction data as [|d data IH]; intros h res h' res' Hval H.
  - simpl in H. injection H as <- <-. rewrite app_nil_r.
    repeat split; try reflexivity. intros d [].
  - inversion Hval as [|? ? Hd Hval']; subst.
    cbn [process_bucle] in H. cbn [filter].
    destruct (condicion_process (deref h d)) as [[|] | e] eqn:Hc; [| |discriminate].
    2:{ assert (Hpd : pasa h d = false) by (unfold pasa; now rewrite Hc).
        rewrite Hpd. exact (IH h res h' res' Hval' H). }
    assert (Hpd : pasa h d = true) by (unfold pasa; now rewrite Hc).
    rewrite Hpd.
    unfold getitem in H.
    destruct (lookup "amt" (deref h d)) as [amt|] eqn:Hamt; [|discriminate].
    destruct (por amt 0.13%float) as [tax | e] eqn:Htax; [|discriminate].
    destruct (mas amt tax) as [total | e] eqn:Htotal; [|discriminate].
    set (h1 := poner d (setitem "tax" (VFloat (round2 tax)) (deref h d)) h) in *.
    set (h2 := poner d (setitem "total" (VFloat (round2 total)) (deref h1 d)) h1) in *.
    assert (Hlen : List.length h2 = List.length h).
    { unfold h2, h1. now rewrite !length_poner. }
    assert (Hd1 : deref h1 d = setitem "tax" (VFloat (round2 tax)) (deref h d)).
    { unfold h1. apply deref_poner_same, Hd. }
    assert (Hd2 : deref h2 d
                  = setitem "total" (VFloat (round2 total))
                      (setitem "tax" (VFloat (round2 tax)) (deref h d))).
    { unfold h2. rewrite deref_poner_same by (unfold h1; now rewrite length_poner).
      now rewrite Hd1. }
    assert (Hother : forall r, r <> d -> deref h2 r = deref h r).
    { intros r Hr. unfold h2, h1. rewrite !deref_poner_other by congruence.
      reflexivity. }
    assert (Hclaves : otras_claves h h2).
    { intros r k Hk1 Hk2. destruct (Nat.eq_dec r d) as [-> | Hr].
      - rewrite Hd2, !lookup_setitem_other by assumption. reflexivity.
      - now rewrite Hother. }
    assert (Hpasa : forall x, pasa h2 x = pasa h x).
    { intros x. apply pasa_ext; apply Hclaves; discriminate. }
    assert (Hval2 : Forall (fun d => (d < List.length h2)%nat) data).
    { now rewrite Hlen. }
    destruct (IH h2 (res ++ [d]) h' res' Hval2 H)
      as (Hres & Hlen' & Hclaves' & Hsame & Hgrav).
    rewrite (filter_ext _ _ Hpasa) in Hres, Hsame, Hgrav.
    assert (Hd_grav : gravada round2 h h2 d).
    { exists amt, tax, total. repeat split; try assumption.
      - rewrite Hd2, lookup_setitem_other by discriminate.
        apply lookup_setitem_same.
      - rewrite Hd2. apply lookup_setitem_same. }
    repeat split.
    + rewrite Hres, <- app_assoc. reflexivity.
    + congruence.
    + intros r k Hk1 Hk2. rewrite Hclaves', Hclaves by assumption. reflexivity.
    + intros r Hr. rewrite Hsame.
      * apply Hother. intros ->. apply Hr. left. reflexivity.
      * intros Hin. apply Hr. right. exact Hin.
    + intros x [<- | Hin].
      * destruct (in_dec Nat.eq_dec d (filter (pasa h) data)) as [Hin | Hout].
        -- destruct (Hgrav d Hin) as (a & t & tt & Ha & Ht & Htt & Hl1 & Hl2).
           exists a, t, tt. repeat split; try assumption.
           rewrite <- Ha. symmetry. apply Hclaves; discriminate.
        -- destruct Hd_grav as (a & t & tt & Ha & Ht & Htt & Hl1 & Hl2).
           exists a, t, tt. rewrite (Hsame d Hout). repeat split; assumption.
      * destruct (Hgrav x Hin) as (a & t & tt & Ha & Ht & Htt & Hl1 & Hl2).
        exists a, t, tt. repeat split; try assumption.
        rewrite <- Ha. symmetry. apply Hclaves; discriminate.
Qed.

End Redondeo.


(** X29. [procesar_pipeline_ventas] never raises [KeyError]:
    [calcular_impuestos_y_totales] reads the amount with [[...]], but
    the filter before it keeps only transactions that have one, a
    missing amount counting as [0]. *)
Theorem procesar_pipeline_ventas_never_misses_the_amount
  (round2 : float -> float) (h : heap) (datos_crudos : list nat) (clave : string) :
  snd (procesar_pipeline_ventas round2 h datos_crudos) <> Lanza (KeyError clave).
Proof.
  unfold procesar_pipeline_ventas. intros H.
  destruct (filtrar_transacciones_validas h datos_crudos) as [validas | e] eqn:Hf.
  - pose proof (filtrar_validas h datos_crudos validas Hf) as Hv.
    pose proof (enriquecer_error round2 h validas Hv [] (KeyError clave)) as He.
    rewrite app_nil_r in He. specialize (He H). discriminate.
  - simpl in H. injection H as ->.
    pose proof (filtrar_error _ _ _ Hf). discriminate.
Qed.

(** X30. [process] rewrites the objects it is given: when it returns,
    the list it returns holds the very references of [data] that pass
    its test, in order; no object has been created; each object referred
    to now carries [tax] and [total], computed from its [amt]; and every
    other object is as it was. *)
Theorem process_rewrites_the_objects_it_is_given (round2 : float -> float)
  (h h' : heap) (data res : list nat) :
  Forall (fun d => (d < List.length h)%nat) data ->
  process round2 h data = (h', Devuelve res) ->
  res = filter (pasa h) data
  /\ List.length h' = List.length h
  /\ (forall d, In d res ->
        exists amt tax total,
          lookup "amt" (deref h d) = Some amt
          /\ por amt 0.13%float = Devuelve tax
          /\ mas amt tax = Devuelve total
          /\ lookup "tax" (deref h' d) = Some (VFloat (round2 tax))
          /\ lookup "total" (deref h' d) = Some (VFloat (round2 total)))
  /\ (forall r, ~ In r res -> deref h' r = deref h r).
Proof.
  intros Hval H. unfold process in H.
  destruct (process_bucle_spec round2 data h [] h' res Hval H)
    as (Hres & Hlen & _ & Hsame & Hgrav).
  simpl in Hres. subst res. repeat split; [exact Hlen | | exact Hsame].
  intros d Hd. exact (Hgrav d Hd).
Qed.

Lemma process_rewrites_the_objects_it_is_given_witness :
  [0%nat] = filter (pasa datos_viejos) [0; 1]%nat
  /\ List.length
       [ [("st"%string, VStr "A"); ("amt"%string, VInt 100);
          ("tax"%string, VFloat 13); ("total"%string, VFloat 113)];
         [("st"%string, VStr "I"); ("amt"%string, VInt 50)] ]
     = List.length datos_viejos
  /\ (forall d, In d [0%nat] ->
        exists amt tax total,
          lookup "amt" (deref datos_viejos d) = Some amt
          /\ por amt 0.13%float = Devuelve tax
          /\ mas amt tax = Devuelve total
          /\ lookup "tax"
               (deref
                  [ [("st"%string, VStr "A"); ("amt"%string, VInt 100);
                     ("tax"%string, VFloat 13); ("total"%string, VFloat 113)];
                    [("st"%string, VStr "I"); ("amt"%string, VInt 50)] ] d)
             = Some (VFloat (sin_redondeo tax))
          /\ lookup "total"
               (deref
                  [ [("st"%string, VStr "A"); ("amt"%string, VInt 100);
                     ("tax"%string, VFloat 13); ("total"%string, VFloat 113)];
                    [("st"%string, VStr "I"); ("amt"%string, VInt 50)] ] d)
             = Some (VFloat (sin_redondeo total)))
  /\ (forall r, ~ In r [0%nat] ->
        deref
          [ [("st"%string, VStr "A"); ("amt"%string, VInt 100);
             ("tax"%string, VFloat 13); ("total"%string, VFloat 113)];
            [("st"%string, VStr "I"); ("amt"%string, VInt 50)] ] r
        = deref datos_viejos r).
Proof.
  apply (process_rewrites_the_objects_it_is_given sin_redondeo datos_viejos).
  - repeat constructor.
  - vm_compute. reflexivity.
Defined.

End CleanCodeFacts.
